(** * A shallow embedding of [discord_rpc_client.py]

    The module [discord_rpc_client] is one class, [DiscordRPCClient], whose
    methods are coroutines over a WebSocket handle.  The embedding keeps the
    shape of the Python code:

    - a decoded JSON text is a Python value ([json]); a [dict] is an
      association list, in insertion order, read at the first binding of a
      key;
    - a coroutine is a computation in a state-and-exception monad [M]: it
      receives the world, returns the world it leaves behind, and either a
      value or the exception that escaped.  What a coroutine did before an
      exception stays done, as in Python;
    - the world holds the client object, one chronological [trace] of log
      records and transport calls, and the frames the server is still going
      to deliver;
    - [json.loads], [json.dumps] and the [websockets] calls are external to
      the module: they are the fields of a [Platform], and every theorem
      holds for every platform. *)

From Stdlib Require Import String Ascii List ZArith Bool Lia.
From Stdlib Require Import DecimalString.
Import ListNotations.

Local Open Scope string_scope.
Local Open Scope list_scope.

Set Warnings "-register-all".

(** ** Python values *)

Module Py.

(** The values [json.loads] produces and [json.dumps] accepts.  A float is
    kept as its IEEE-754 binary64 bit pattern; the client never computes
    with one. *)
Inductive json : Type :=
| JNull
| JBool (b : bool)
| JInt (n : Z)
| JFloat (bits : Z)
| JString (s : string)
| JArray (items : list json)
| JObject (fields : list (string * json)).

(** [type(v).__name__] *)
Definition type_name (v : json) : string :=
  match v with
  | JNull => "NoneType"
  | JBool _ => "bool"
  | JInt _ => "int"
  | JFloat _ => "float"
  | JString _ => "str"
  | JArray _ => "list"
  | JObject _ => "dict"
  end.

(** The binding of [key] in a dict. *)
Fixpoint lookup (key : string) (fields : list (string * json)) : option json :=
  match fields with
  | [] => None
  | (k, v) :: rest => if String.eqb k key then Some v else lookup key rest
  end.

(** [v == s] for a string literal [s]: only the string [s] is equal to it. *)
Definition eq_str (v : json) (s : string) : bool :=
  match v with
  | JString t => String.eqb t s
  | _ => false
  end.

(** [str(n)] for an [int]. *)
Definition str_int (n : Z) : string := NilZero.string_of_int (Z.to_int n).

(** The exceptions the client can meet.  All of them derive from
    [Exception]; [KeyError] derives from [LookupError], and the closing
    errors of [websockets] derive from [ConnectionClosed]. *)
Inductive exn : Type :=
| JSONDecodeError (msg : string)
| KeyError (key : string)
| TypeError (of_type : string)
| AttributeError (of_type attr : string)
| ConnectionClosed (code : Z) (reason : string)
| OtherException (cls msg : string).

Definition is_LookupError (e : exn) : bool :=
  match e with
  | KeyError _ => true
  | _ => false
  end.

Inductive result (A : Type) : Type :=
| Ok (a : A)
| Raise (e : exn).

Arguments Ok {A} a.
Arguments Raise {A} e.

End Py.
Export Py.

(** ** The world outside the client *)

(** A connection handle of [websockets]. *)
Definition conn := nat.

Inductive level : Type := INFO | ERROR.

(** An f-string is kept as its pieces: literal text, an interpolated value,
    an interpolated exception. *)
Inductive piece : Type :=
| Lit (s : string)
| Val (v : json)
| Exn (e : exn).

(** What the transport was asked, and what it answered. *)
Inductive io_event : Type :=
| Connect (url : string) (answer : result conn)
| Recv (h : conn) (frame : string)
| RecvEnd (h : conn) (error : option exn)
| Send (h : conn) (frame : string) (answer : result unit)
| Close (h : conn) (answer : result unit).

Inductive event : Type :=
| Log (lvl : level) (msg : list piece)
| IO (e : io_event).

(** The collaborators the module imports.  The transport may answer
    according to everything that happened so far.  [json_dumps indent v]
    is the text [json.dumps] returns; [json_dumps_raises v] is the
    exception it raises instead on a value of the caller that it cannot
    serialise, such as an [int] beyond the digit limit. *)
Record Platform : Type := mkPlatform {
  json_loads : string -> result json;
  json_dumps : option Z -> json -> string;
  json_dumps_raises : json -> option exn;
  ws_connect : list event -> string -> result conn;
  ws_send : list event -> conn -> string -> result unit;
  ws_close : list event -> conn -> result unit
}.

(** [class DiscordRPCClient] *)
Record DiscordRPCClient : Type := mkClient {
  host : string;
  port : Z;
  websocket : option conn;
  url : string
}.

(** [__init__(self, host='localhost', port=6463)] *)
Definition init (host : string) (port : Z) : DiscordRPCClient :=
  {| host := host;
     port := port;
     websocket := None;
     url := "ws://" ++ host ++ ":" ++ str_int port |}.

Definition default_client : DiscordRPCClient := init "localhost" 6463.

Record world : Type := mkWorld {
  self : DiscordRPCClient;
  trace : list event;
  (** frames the server will deliver, oldest first *)
  inbox : list string;
  (** how the frame iterator ends after them: normally, or by raising *)
  inbox_end : option exn
}.

Definition with_trace (w : world) (t : list event) : world :=
  {| self := self w; trace := t; inbox := inbox w; inbox_end := inbox_end w |}.

Definition with_inbox (w : world) (fs : list string) : world :=
  {| self := self w; trace := trace w; inbox := fs; inbox_end := inbox_end w |}.

Definition with_websocket (w : world) (ws : option conn) : world :=
  {| self := {| host := host (self w); port := port (self w);
                websocket := ws; url := url (self w) |};
     trace := trace w; inbox := inbox w; inbox_end := inbox_end w |}.

(** ** Coroutines *)

Definition M (A : Type) : Type := world -> result A * world.

Definition ret {A} (a : A) : M A := fun w => (Ok a, w).

Definition raise {A} (e : exn) : M A := fun w => (Raise e, w).

Definition bind {A B} (m : M A) (k : A -> M B) : M B :=
  fun w =>
    match m w with
    | (Ok a, w') => k a w'
    | (Raise e, w') => (Raise e, w')
    end.

(** [try: m  except ...: handler].  The handler answers [None] for an
    exception no [except] clause matches, which then keeps propagating. *)
Definition try_except {A} (m : M A) (handler : exn -> option (M A)) : M A :=
  fun w =>
    match m w with
    | (Ok a, w') => (Ok a, w')
    | (Raise e, w') =>
        match handler e with
        | Some k => k w'
        | None => (Raise e, w')
        end
    end.

Declare Scope py_scope.
Delimit Scope py_scope with py.
Notation "x <- m ;; k" := (bind m (fun x => k))
  (at level 61, m at next level, right associativity) : py_scope.
Notation "m ;; k" := (bind m (fun _ => k))
  (at level 61, right associativity) : py_scope.
Local Open Scope py_scope.

Definition gets {A} (f : world -> A) : M A := fun w => (Ok (f w), w).

Definition emit (ev : event) : M unit :=
  fun w => (Ok tt, with_trace w (trace w ++ [ev])).

Definition logger_info (msg : list piece) : M unit := emit (Log INFO msg).
Definition logger_error (msg : list piece) : M unit := emit (Log ERROR msg).

Definition lift {A} (r : result A) : M A := fun w => (r, w).

(** [obj[key]] with a string key. *)
Definition getitem (obj : json) (key : string) : M json :=
  match obj with
  | JObject fields =>
      match lookup key fields with
      | Some v => ret v
      | None => raise (KeyError key)
      end
  | _ => raise (TypeError (type_name obj))
  end.

(** What [d.get(key)] answers on a dict: the binding, or [None]. *)
Definition get_or_none (key : string) (fields : list (string * json)) : json :=
  match lookup key fields with
  | Some v => v
  | None => JNull
  end.

(** [obj.get(key)]: only a dict has the method. *)
Definition dict_get (obj : json) (key : string) : M json :=
  match obj with
  | JObject fields => ret (get_or_none key fields)
  | _ => raise (AttributeError (type_name obj) "get")
  end.

Section Client.

Variable P : Platform.

(** [await websockets.connect(url)] *)
Definition websockets_connect (u : string) : M conn :=
  fun w =>
    let answer := ws_connect P (trace w) u in
    (answer, with_trace w (trace w ++ [IO (Connect u answer)])).

(** [await self.websocket.send(message)] *)
Definition websocket_send (h : conn) (message : string) : M unit :=
  fun w =>
    let answer := ws_send P (trace w) h message in
    (answer, with_trace w (trace w ++ [IO (Send h message answer)])).

(** [await self.websocket.close()] *)
Definition websocket_close (h : conn) : M unit :=
  fun w =>
    let answer := ws_close P (trace w) h in
    (answer, with_trace w (trace w ++ [IO (Close h answer)])).

(** One step of [async for message in self.websocket] that yields a frame. *)
Definition deliver (h : conn) (message : string) (rest : list string) : M unit :=
  fun w => (Ok tt, with_inbox (with_trace w (trace w ++ [IO (Recv h message)])) rest).

(** The step that finds no frame left: the iteration stops, or raises. *)
Definition end_of_frames (h : conn) : M unit :=
  fun w =>
    let w' := with_trace w (trace w ++ [IO (RecvEnd h (inbox_end w))]) in
    match inbox_end w with
    | None => (Ok tt, w')
    | Some e => (Raise e, w')
    end.

(** [async def connect(self)] *)
Definition connect : M bool :=
  try_except
    (u <- gets (fun w => url (self w)) ;;
     logger_info [Lit "Connecting to "; Val (JString u)] ;;
     h <- websockets_connect u ;;
     (fun w => (Ok tt, with_websocket w (Some h))) ;;
     logger_info [Lit "Connected successfully!"] ;;
     ret true)
    (fun e => Some (logger_error [Lit "Failed to connect: "; Exn e] ;;
                    ret false)).

(** [async def handle_message(self, data)] *)
Definition handle_message (data : json) : M unit :=
  cmd <- dict_get data "cmd" ;;
  evt <- dict_get data "evt" ;;
  if eq_str evt "READY" then
    logger_info [Lit "Discord RPC is ready!"] ;;
    d <- getitem data "data" ;;
    u <- getitem d "user" ;;
    name <- getitem u "username" ;;
    logger_info [Lit "User: "; Val name] ;;
    d' <- getitem data "data" ;;
    c <- getitem d' "config" ;;
    logger_info [Lit "Config: "; Val c]
  else if eq_str cmd "DISPATCH" then
    logger_info [Lit "Dispatch event: "; Val evt] ;;
    d <- getitem data "data" ;;
    logger_info [Lit "Data: "; Val (JString (json_dumps P (Some 2%Z) d))]
  else
    logger_info [Lit "Unknown message type - CMD: "; Val cmd;
                 Lit ", EVT: "; Val evt].

(** The inner [try] of the loop body: decode, dispatch, and the
    [except json.JSONDecodeError] clause. *)
Definition process (message : string) : M unit :=
  try_except
    (data <- lift (json_loads P message) ;;
     handle_message data)
    (fun e =>
       match e with
       | JSONDecodeError _ =>
           Some (logger_error [Lit "Failed to parse JSON: "; Exn e] ;;
                 logger_error [Lit "Raw message: "; Val (JString message)])
       | _ => None
       end).

(** [async for message in self.websocket: ...] over the frames to come. *)
Fixpoint listen_loop (h : conn) (frames : list string) : M unit :=
  match frames with
  | [] => end_of_frames h
  | message :: rest =>
      deliver h message rest ;;
      logger_info [Lit "Received: "; Val (JString message)] ;;
      process message ;;
      listen_loop h rest
  end.

(** [async def listen(self)] *)
Definition listen : M unit :=
  ws <- gets (fun w => websocket (self w)) ;;
  match ws with
  | None => logger_error [Lit "Not connected. Call connect() first."]
  | Some h =>
      try_except
        (fun w => listen_loop h (inbox w) w)
        (fun e =>
           Some (match e with
                 | ConnectionClosed _ _ =>
                     logger_info [Lit "Connection closed by server"]
                 | _ => logger_error [Lit "Error while listening: "; Exn e]
                 end))
  end.

(** [json.dumps(command)] on a value of the caller. *)
Definition dumps (command : json) : M string :=
  match json_dumps_raises P command with
  | Some e => raise e
  | None => ret (json_dumps P None command)
  end.

(** [async def send_command(self, command)] *)
Definition send_command (command : json) : M unit :=
  ws <- gets (fun w => websocket (self w)) ;;
  match ws with
  | None => logger_error [Lit "Not connected. Call connect() first."]
  | Some h =>
      try_except
        (message <- dumps command ;;
         websocket_send h message ;;
         logger_info [Lit "Sent: "; Val (JString message)])
        (fun e => Some (logger_error [Lit "Failed to send command: "; Exn e]))
  end.

(** [async def send_activity_update(self, activity)] *)
Definition send_activity_update (activity : json) : M unit :=
  let command :=
    JObject [("cmd", JString "SET_ACTIVITY");
             ("args", JObject [("pid", JInt 12345);
                               ("activity", activity)]);
             ("nonce", JString "activity-update")] in
  send_command command.

(** [async def close(self)] *)
Definition close : M unit :=
  ws <- gets (fun w => websocket (self w)) ;;
  match ws with
  | Some h =>
      websocket_close h ;;
      logger_info [Lit "Connection closed"]
  | None => ret tt
  end.

End Client.

Arguments ret {A} a w /.
Arguments raise {A} e w /.
Arguments gets {A} f w /.
Arguments lift {A} r w /.

(** ** What a coroutine returns and what it leaves in the trace *)

Definition blank : world :=
  {| self := default_client; trace := []; inbox := []; inbox_end := None |}.

(** The outcome and the events of a coroutine started in the blank world. *)
Definition returned {A} (m : M A) : result A := fst (m blank).
Definition emitted {A} (m : M A) : list event := trace (snd (m blank)).

(** A coroutine that only writes to the trace, the same events whatever the
    world: it reads neither the client nor the inbox nor the transport. *)
Definition logs_only {A} (m : M A) : Prop :=
  forall w, m w = (returned m, with_trace w (trace w ++ emitted m)).

(** ** Reading the trace *)

(** The frames handed to [websocket.send], oldest first. *)
Fixpoint sent_frames (t : list event) : list string :=
  match t with
  | [] => []
  | IO (Send _ frame _) :: rest => frame :: sent_frames rest
  | _ :: rest => sent_frames rest
  end.

(** The handles [websocket.close] was called on, oldest first. *)
Fixpoint closed_handles (t : list event) : list conn :=
  match t with
  | [] => []
  | IO (Close h _) :: rest => h :: closed_handles rest
  | _ :: rest => closed_handles rest
  end.

Definition starts_with (texts : list string) (msg : list piece) : bool :=
  match msg with
  | Lit s :: _ => existsb (String.eqb s) texts
  | _ => false
  end.

(** Records written by the three branches of [handle_message]. *)
Definition ready_record (ev : event) : bool :=
  match ev with
  | Log INFO msg => starts_with ["Discord RPC is ready!"; "User: "; "Config: "] msg
  | _ => false
  end.

Definition dispatch_record (ev : event) : bool :=
  match ev with
  | Log INFO msg => starts_with ["Dispatch event: "; "Data: "] msg
  | _ => false
  end.

Definition unknown_record (ev : event) : bool :=
  match ev with
  | Log INFO msg => starts_with ["Unknown message type - CMD: "] msg
  | _ => false
  end.

(** ** The records and the frames the theorems speak of *)

(** The record of [send_command] and [listen] without a handle. *)
Definition usage_error : event :=
  Log ERROR [Lit "Not connected. Call connect() first."].

(** The first record of [connect]. *)
Definition connecting (w : world) : event :=
  Log INFO [Lit "Connecting to "; Val (JString (url (self w)))].

(** The start of a turn of the loop: a frame is taken and logged. *)
Definition received (h : conn) (frame : string) : list event :=
  [IO (Recv h frame); Log INFO [Lit "Received: "; Val (JString frame)]].


(** The record of the last [except] clause of [listen]. *)
Definition listen_error (e : exn) : event :=
  Log ERROR [Lit "Error while listening: "; Exn e].

Section Frames.

Variable P : Platform.

(** A frame with its decoded Envelope, which [handle_message] handles
    without raising. *)
Definition dispatchable (fd : string * json) : Prop :=
  json_loads P (fst fd) = Ok (snd fd)
  /\ returned (handle_message P (snd fd)) = Ok tt.

(** What one turn of the loop writes for such a frame: the frame is
    taken from the transport and logged, then dispatch writes its
    records. *)
Definition served (h : conn) (fd : string * json) : list event :=
  received h (fst fd) ++ emitted (handle_message P (snd fd)).

End Frames.

(** ** A sample platform

    A transport that accepts everything and a decoder that knows a handful
    of frames, to run the client on concrete inputs. *)

Module Sample.

Definition quoted (s : string) : string :=
  String (ascii_of_nat 34) (s ++ String (ascii_of_nat 34) "").

(** [{"evt":"READY","data":{"user":{"username":"alice"},"config":{}}}] *)
Definition ready_alice : json :=
  JObject [("evt", JString "READY");
           ("data", JObject [("user", JObject [("username", JString "alice")]);
                             ("config", JObject [])])].

Definition frame_ready_alice : string :=
  "{" ++ quoted "evt" ++ ":" ++ quoted "READY" ++ "," ++ quoted "data" ++ ":{"
      ++ quoted "user" ++ ":{" ++ quoted "username" ++ ":" ++ quoted "alice"
      ++ "}," ++ quoted "config" ++ ":{}}}".

(** [{"cmd":"DISPATCH","evt":"READY"}] *)
Definition ready_bare : json :=
  JObject [("cmd", JString "DISPATCH"); ("evt", JString "READY")].

Definition frame_ready_bare : string :=
  "{" ++ quoted "cmd" ++ ":" ++ quoted "DISPATCH" ++ ","
      ++ quoted "evt" ++ ":" ++ quoted "READY" ++ "}".

(** [{"cmd":"DISPATCH","evt":"X","data":{}}] *)
Definition dispatch_x : json :=
  JObject [("cmd", JString "DISPATCH"); ("evt", JString "X");
           ("data", JObject [])].

Definition frame_dispatch_x : string :=
  "{" ++ quoted "cmd" ++ ":" ++ quoted "DISPATCH" ++ ","
      ++ quoted "evt" ++ ":" ++ quoted "X" ++ ","
      ++ quoted "data" ++ ":{}}".

(** [{"nonce":"n1"}] *)
Definition only_nonce : json := JObject [("nonce", JString "n1")].

Definition frame_only_nonce : string :=
  "{" ++ quoted "nonce" ++ ":" ++ quoted "n1" ++ "}".

Definition known_frames : list (string * json) :=
  [(frame_ready_alice, ready_alice);
   (frame_ready_bare, ready_bare);
   (frame_dispatch_x, dispatch_x);
   (frame_only_nonce, only_nonce);
   ("{}", JObject []);
   ("[]", JArray []);
   ("null", JNull)].

Fixpoint decode (frame : string) (table : list (string * json)) : result json :=
  match table with
  | [] => Raise (JSONDecodeError "Expecting value: line 1 column 1 (char 0)")
  | (text, v) :: rest => if String.eqb text frame then Ok v else decode frame rest
  end.

Definition refused : exn := OtherException "ConnectionRefusedError" "Connect call failed".
Definition timed_out : exn := OtherException "TimeoutError" "timed out during opening handshake".

(** Every call succeeds; the handle is [1]. *)
Definition calm : Platform :=
  {| json_loads := fun frame => decode frame known_frames;
     json_dumps := fun _ v => ("<" ++ type_name v ++ ">")%string;
     json_dumps_raises := fun _ => None;
     ws_connect := fun _ _ => Ok 1;
     ws_send := fun _ _ _ => Ok tt;
     ws_close := fun _ _ => Ok tt |}.

(** Three frames with the Envelopes [decode] gives them. *)
Definition three_frames : list (string * json) :=
  [(frame_dispatch_x, dispatch_x);
   (frame_only_nonce, only_nonce);
   (frame_ready_alice, ready_alice)].

(** [websockets.connect] fails with [cause]. *)
Definition failing (cause : exn) : Platform :=
  {| json_loads := json_loads calm;
     json_dumps := json_dumps calm;
     json_dumps_raises := json_dumps_raises calm;
     ws_connect := fun _ _ => Raise cause;
     ws_send := ws_send calm;
     ws_close := ws_close calm |}.

(** A freshly constructed client, nothing logged, [frames] to come. *)
Definition fresh (frames : list string) : world :=
  {| self := default_client; trace := []; inbox := frames; inbox_end := None |}.

(** The same after a successful [connect] that left no trace. *)
Definition connected (frames : list string) : world :=
  with_websocket (fresh frames) (Some 1).

End Sample.

(** ** The demonstration routines: [main] and [test_commands] *)

Definition with_self (w : world) (c : DiscordRPCClient) : world :=
  {| self := c; trace := trace w; inbox := inbox w; inbox_end := inbox_end w |}.

(** [try: m  finally: cleanup].  The cleanup runs on both ways out of [m];
    an exception of the cleanup replaces the outcome of [m]. *)
Definition try_finally {A} (m : M A) (cleanup : M unit) : M A :=
  fun w =>
    match m w with
    | (r, w') =>
        match cleanup w' with
        | (Ok _, w'') => (r, w'')
        | (Raise e, w'') => (Raise e, w'')
        end
    end.

(** The transport calls of a trace, oldest first. *)
Fixpoint io_events (t : list event) : list io_event :=
  match t with
  | [] => []
  | IO e :: rest => e :: io_events rest
  | Log _ _ :: rest => io_events rest
  end.

Definition is_info (ev : event) : bool :=
  match ev with
  | Log INFO _ => true
  | _ => false
  end.

(** The exceptions [handle_message] can raise: those of [data.get] and of
    the subscripts. *)
Definition dispatch_exn (e : exn) : bool :=
  match e with
  | KeyError _ | TypeError _ | AttributeError _ _ => true
  | _ => false
  end.

(** The record the outer handlers of [listen] write for [e]. *)
Definition listen_closing (e : exn) : event :=
  match e with
  | ConnectionClosed _ _ => Log INFO [Lit "Connection closed by server"]
  | _ => listen_error e
  end.

(** The three commands of [test_commands]. *)
Definition get_guilds : json := JObject [("cmd", JString "GET_GUILDS")].

Definition get_channels : json :=
  JObject [("cmd", JString "GET_CHANNELS");
           ("args", JObject [("guild_id", JNull)])].

Definition test_activity : json :=
  JObject [("details", JString "Testing Discord RPC");
           ("state", JString "Via WebSocket");
           ("assets", JObject [("large_image", JString "large_image_key");
                                ("large_text", JString "Large image tooltip");
                                ("small_image", JString "small_image_key");
                                ("small_text", JString "Small image tooltip")])].

(** The Envelope [send_activity_update] builds around [activity]. *)
Definition set_activity (activity : json) : json :=
  JObject [("cmd", JString "SET_ACTIVITY");
           ("args", JObject [("pid", JInt 12345); ("activity", activity)]);
           ("nonce", JString "activity-update")].

Section Demo.

Variable P : Platform.

(** [client = DiscordRPCClient()] *)
Definition new_client : M unit :=
  fun w => (Ok tt, with_self w default_client).

(** [await asyncio.sleep(seconds)]: time is not part of the world. *)
Definition asyncio_sleep (seconds : Z) : M unit := ret tt.

(** [async def main()].  No exception of [exn] is a [KeyboardInterrupt],
    so the [except KeyboardInterrupt] clause matches none of them. *)
Definition main : M unit :=
  new_client ;;
  ok <- connect P ;;
  if negb ok then ret tt
  else
    try_finally
      (try_except (listen P) (fun _ => None))
      (close P).

(** The first loop of [test_commands]: frames are decoded and dropped
    until one has [evt] equal to ["READY"], which breaks out of the loop.
    Nothing is caught here. *)
Fixpoint await_ready (h : conn) (frames : list string) : M unit :=
  match frames with
  | [] => end_of_frames h
  | message :: rest =>
      deliver h message rest ;;
      data <- lift (json_loads P message) ;;
      evt <- dict_get data "evt" ;;
      if eq_str evt "READY" then
        logger_info [Lit "Received READY, now sending test commands..."]
      else await_ready h rest
  end.

(** [listen] under [asyncio.wait_for]: [steps] is the number of steps of
    the frame iterator that complete before the deadline.  The
    cancellation falls on the await of the next frame, the one point where
    [listen] is suspended, and neither [except] clause of [listen] catches
    it.  The answer is [true] when [listen] returned in time. *)
Fixpoint listen_loop_within (h : conn) (steps : nat) (frames : list string)
  : M bool :=
  match steps with
  | O => ret false
  | S steps' =>
      match frames with
      | [] => end_of_frames h ;; ret true
      | message :: rest =>
          deliver h message rest ;;
          logger_info [Lit "Received: "; Val (JString message)] ;;
          process P message ;;
          listen_loop_within h steps' rest
      end
  end.

Definition listen_within (steps : nat) : M bool :=
  ws <- gets (fun w => websocket (self w)) ;;
  match ws with
  | None =>
      logger_error [Lit "Not connected. Call connect() first."] ;;
      ret true
  | Some h =>
      try_except
        (fun w => listen_loop_within h steps (inbox w) w)
        (fun e =>
           Some (match e with
                 | ConnectionClosed _ _ =>
                     logger_info [Lit "Connection closed by server"]
                 | _ => logger_error [Lit "Error while listening: "; Exn e]
                 end ;;
                 ret true))
  end.

(** The body of [test_commands] after its first loop: the three commands,
    then [listen] for at most ten seconds. *)
Definition send_test_commands (steps : nat) : M unit :=
  send_command P get_guilds ;;
  asyncio_sleep 1 ;;
  send_command P get_channels ;;
  asyncio_sleep 1 ;;
  send_activity_update P test_activity ;;
  in_time <- listen_within steps ;;
  if in_time : bool then ret tt
  else logger_info [Lit "Finished listening after "; Val (JInt 10);
                    Lit " seconds"].

(** [async def test_commands()], with the number of iterator steps the
    ten seconds of the final [wait_for] leave to [listen]. *)
Definition test_commands (steps : nat) : M unit :=
  new_client ;;
  ok <- connect P ;;
  if negb ok then ret tt
  else
    try_finally
      (try_except
         (ws <- gets (fun w => websocket (self w)) ;;
          match ws with
          | Some h => fun w => await_ready h (inbox w) w
          | None => raise (TypeError "NoneType")
          end ;;
          send_test_commands steps)
         (fun e => Some (logger_error [Lit "Error during testing: "; Exn e])))
      (close P).

End Demo.

(** A frame the first loop of [test_commands] drops: it decodes to an
    object whose [evt] is not ["READY"]. *)
Definition not_ready (P : Platform) (frame : string) : Prop :=
  exists fields,
    json_loads P frame = Ok (JObject fields)
    /\ eq_str (get_or_none "evt" fields) "READY" = false.

(** Frames taken from the transport, and nothing else. *)
Definition taken_only (h : conn) (frames : list string) : list event :=
  map (fun frame => IO (Recv h frame)) frames.

(** The world of [main] and [test_commands] once [connect] has returned
    the handle [h]: a new client holding [h], and the three events of
    [connect] in the trace. *)
Definition after_connect (w : world) (h : conn) : world :=
  with_websocket
    (with_trace (with_self w default_client)
       (trace w ++
        [connecting (with_self w default_client);
         IO (Connect (url default_client) (Ok h));
         Log INFO [Lit "Connected successfully!"]]))
    (Some h).

(** What [websockets.connect] answers to [main] and [test_commands]. *)
Definition first_answer (P : Platform) (w : world) : result conn :=
  ws_connect P (trace w ++ [connecting (with_self w default_client)])
    (url default_client).

(** ** What a routine leaves behind *)

Definition is_log (ev : event) : bool :=
  match ev with
  | Log _ _ => true
  | IO _ => false
  end.

(** A coroutine that only adds events of the class [ok] to the trace and
    touches nothing else of the world. *)
Definition writes {A} (ok : event -> bool) (m : M A) : Prop :=
  forall w, exists r evs,
    m w = (r, with_trace w (trace w ++ evs)) /\ forallb ok evs = true.

(** What the client asks of the transport beyond connecting and
    receiving: to send a frame, or to close a handle. *)
Inductive request : Type :=
| Sending (h : conn) (frame : string)
| Closing (h : conn).

(** The requests of a trace, oldest first. *)
Fixpoint requests (t : list event) : list request :=
  match t with
  | [] => []
  | IO (Send h frame _) :: rest => Sending h frame :: requests rest
  | IO (Close h _) :: rest => Closing h :: requests rest
  | _ :: rest => requests rest
  end.

Definition frames_of (asked : list request) : list string :=
  flat_map (fun r => match r with Sending _ frame => [frame] | Closing _ => [] end)
           asked.

Definition handles_of (asked : list request) : list conn :=
  flat_map (fun r => match r with Sending _ _ => [] | Closing h => [h] end) asked.

(** From [w] to [w']: the client object is the same, the trace has only
    grown, what it grew by asked the transport for [asked], in this order,
    and frames were only taken from the front of the inbox. *)
Definition footprint (w w' : world) (asked : list request) : Prop :=
  self w' = self w
  /\ inbox_end w' = inbox_end w
  /\ (exists more, trace w' = trace w ++ more /\ requests more = asked)
  /\ exists taken, inbox w = taken ++ inbox w'.

(** The next thing the frame iterator does: it yields the first pending
    frame, or it ends. *)
Definition next_step (h : conn) (frames : list string) (ending : option exn)
  : event :=
  match frames with
  | next :: _ => IO (Recv h next)
  | [] => IO (RecvEnd h ending)
  end.

(** How the frame iterator ends is logged by [listen]: not at all when it
    just stops, by [listen_closing] when it raises. *)
Definition closing_record (ending : option exn) : list event :=
  match ending with
  | None => []
  | Some e => [listen_closing e]
  end.

(** The exception a ready Envelope, or a generic dispatch, meets when the
    payload the branch reads is not there: [KeyError] for a key a dict
    does not have, [TypeError] for a value that is there but is not a
    dict. *)
Inductive payload_error (fields : list (string * json)) : exn -> Prop :=
| ready_without_data :
    lookup "evt" fields = Some (JString "READY") ->
    lookup "data" fields = None ->
    payload_error fields (KeyError "data")
| ready_data_not_dict v :
    lookup "evt" fields = Some (JString "READY") ->
    lookup "data" fields = Some v ->
    type_name v <> "dict" ->
    payload_error fields (TypeError (type_name v))
| ready_without_user d :
    lookup "evt" fields = Some (JString "READY") ->
    lookup "data" fields = Some (JObject d) ->
    lookup "user" d = None ->
    payload_error fields (KeyError "user")
| ready_user_not_dict d v :
    lookup "evt" fields = Some (JString "READY") ->
    lookup "data" fields = Some (JObject d) ->
    lookup "user" d = Some v ->
    type_name v <> "dict" ->
    payload_error fields (TypeError (type_name v))
| ready_without_username d u :
    lookup "evt" fields = Some (JString "READY") ->
    lookup "data" fields = Some (JObject d) ->
    lookup "user" d = Some (JObject u) ->
    lookup "username" u = None ->
    payload_error fields (KeyError "username")
| ready_without_config d u name :
    lookup "evt" fields = Some (JString "READY") ->
    lookup "data" fields = Some (JObject d) ->
    lookup "user" d = Some (JObject u) ->
    lookup "username" u = Some name ->
    lookup "config" d = None ->
    payload_error fields (KeyError "config")
| dispatch_without_data :
    eq_str (get_or_none "evt" fields) "READY" = false ->
    lookup "cmd" fields = Some (JString "DISPATCH") ->
    lookup "data" fields = None ->
    payload_error fields (KeyError "data").

(** The three commands of [test_commands] as requests on [h]. *)
Definition test_requests (P : Platform) (h : conn) : list request :=
  [Sending h (json_dumps P None get_guilds);
   Sending h (json_dumps P None get_channels);
   Sending h (json_dumps P None (set_activity test_activity))].

(** ** Platforms that fail *)

Module Trial.

Definition dropped : exn := ConnectionClosed 1006 "".
Definition too_deep : exn :=
  OtherException "RecursionError" "maximum recursion depth exceeded".
Definition broken_pipe : exn := OtherException "BrokenPipeError" "Broken pipe".

(** [websocket.send] raises. *)
Definition no_send : Platform :=
  {| json_loads := json_loads Sample.calm;
     json_dumps := json_dumps Sample.calm;
     json_dumps_raises := json_dumps_raises Sample.calm;
     ws_connect := ws_connect Sample.calm;
     ws_send := fun _ _ _ => Raise dropped;
     ws_close := ws_close Sample.calm |}.

(** [websocket.close] raises. *)
Definition no_close : Platform :=
  {| json_loads := json_loads Sample.calm;
     json_dumps := json_dumps Sample.calm;
     json_dumps_raises := json_dumps_raises Sample.calm;
     ws_connect := ws_connect Sample.calm;
     ws_send := ws_send Sample.calm;
     ws_close := fun _ _ => Raise broken_pipe |}.

(** [json.loads] gives up on every frame with a [RecursionError]. *)
Definition no_loads : Platform :=
  {| json_loads := fun _ => Raise too_deep;
     json_dumps := json_dumps Sample.calm;
     json_dumps_raises := json_dumps_raises Sample.calm;
     ws_connect := ws_connect Sample.calm;
     ws_send := ws_send Sample.calm;
     ws_close := ws_close Sample.calm |}.

(** The integer limit of [json.loads] and [json.dumps]: 4300 digits. *)
Definition digit_limit : exn :=
  OtherException "ValueError"
    "Exceeds the limit (4300 digits) for integer string conversion".



Fixpoint all_digits (s : string) : bool :=
  match s with
  | EmptyString => true
  | String c rest =>
      (Nat.leb 48 (nat_of_ascii c) && Nat.leb (nat_of_ascii c) 57)
      && all_digits rest
  end.

(** An [int] of more than 4300 digits somewhere in the value; the test is
    on the binary length, [2**14285] being the first power of two beyond
    [10**4300]. *)
Fixpoint has_long_int (v : json) : bool :=
  match v with
  | JInt n => Z.ltb 14284 (Z.log2 (Z.abs n))
  | JArray items =>
      (fix any (l : list json) : bool :=
         match l with
         | [] => false
         | x :: rest => has_long_int x || any rest
         end) items
  | JObject fields =>
      (fix any (l : list (string * json)) : bool :=
         match l with
         | [] => false
         | (_, x) :: rest => has_long_int x || any rest
         end) fields
  | _ => false
  end.

(** The text of a value, in the default layout of [json.dumps], for
    values without floats and strings without characters to escape. *)
Fixpoint dumps_text (v : json) : string :=
  match v with
  | JNull => "null"
  | JBool true => "true"
  | JBool false => "false"
  | JInt n => str_int n
  | JFloat _ => "0.0"
  | JString s => Sample.quoted s
  | JArray items =>
      ("[" ++
       (fix join (l : list json) : string :=
          match l with
          | [] => ""
          | [x] => dumps_text x
          | x :: rest => dumps_text x ++ ", " ++ join rest
          end) items ++ "]")%string
  | JObject fields =>
      ("{" ++
       (fix join (l : list (string * json)) : string :=
          match l with
          | [] => ""
          | [(k, x)] => Sample.quoted k ++ ": " ++ dumps_text x
          | (k, x) :: rest =>
              Sample.quoted k ++ ": " ++ dumps_text x ++ ", " ++ join rest
          end) fields ++ "}")%string
  end.

(** A platform with the digit limit on both sides and a serialiser that
    prints; the transport accepts everything. *)
Definition limited : Platform :=
  {| json_loads :=
       fun frame =>
         if all_digits frame && Nat.ltb 4300 (String.length frame)
         then Raise digit_limit
         else json_loads Sample.calm frame;
     json_dumps := fun _ v => dumps_text v;
     json_dumps_raises :=
       fun v => if has_long_int v then Some digit_limit else None;
     ws_connect := ws_connect Sample.calm;
     ws_send := ws_send Sample.calm;
     ws_close := ws_close Sample.calm |}.

(** The same with a transport that refuses every frame. *)
Definition limited_no_send : Platform :=
  {| json_loads := json_loads limited;
     json_dumps := json_dumps limited;
     json_dumps_raises := json_dumps_raises limited;
     ws_connect := ws_connect limited;
     ws_send := fun _ _ _ => Raise dropped;
     ws_close := ws_close limited |}.

(** [{"cmd": 2**16610}], an [int] of 5001 digits. *)
Definition long_command : json := JObject [("cmd", JInt (Z.shiftl 1 16610))].

(** A connected client whose frame iterator ends by raising [e]. *)
Definition ending (e : exn) : world :=
  {| self := self (Sample.connected []); trace := []; inbox := [];
     inbox_end := Some e |}.

End Trial.

(** ** The trace under the monad *)

Lemma with_trace_with_trace w t t' :
  with_trace (with_trace w t) t' = with_trace w t'.
Proof. reflexivity. Qed.

Lemma with_trace_same w : with_trace w (trace w) = w.
Proof. destruct w; reflexivity. Qed.

Lemma with_inbox_same w : with_inbox w (inbox w) = w.
Proof. destruct w; reflexivity. Qed.

Lemma logs_only_ret {A} (a : A) : logs_only (ret a).
Proof.
  intro w. unfold returned, emitted. simpl.
  now rewrite app_nil_r, with_trace_same.
Qed.

Lemma logs_only_raise {A} (e : exn) : logs_only (@raise A e).
Proof.
  intro w. unfold returned, emitted. simpl.
  now rewrite app_nil_r, with_trace_same.
Qed.

Lemma logs_only_emit ev : logs_only (emit ev).
Proof. intro w. reflexivity. Qed.

Lemma logs_only_bind {A B} (m : M A) (k : A -> M B) :
  logs_only m -> (forall a, logs_only (k a)) -> logs_only (bind m k).
Proof.
  intros Hm Hk w. unfold returned, emitted, bind.
  rewrite (Hm w), (Hm blank).
  destruct (returned m) as [a | e]; simpl.
  - rewrite (Hk a (with_trace w _)), (Hk a (with_trace blank _)). simpl.
    now rewrite app_assoc.
  - reflexivity.
Qed.

Lemma logs_only_try_except {A} (m : M A) handler :
  logs_only m ->
  (forall e k, handler e = Some k -> logs_only k) ->
  logs_only (try_except m handler).
Proof.
  intros Hm Hh w. unfold returned, emitted, try_except.
  rewrite (Hm w), (Hm blank).
  destruct (returned m) as [a | e]; simpl; [reflexivity |].
  destruct (handler e) as [k |] eqn:Hk; simpl; [| reflexivity].
  rewrite (Hh e k Hk (with_trace w _)), (Hh e k Hk (with_trace blank _)). simpl.
  now rewrite app_assoc.
Qed.

Lemma logs_only_getitem obj key : logs_only (getitem obj key).
Proof.
  destruct obj; simpl; try apply logs_only_raise.
  destruct (lookup key fields); [apply logs_only_ret | apply logs_only_raise].
Qed.

Lemma logs_only_dict_get obj key : logs_only (dict_get obj key).
Proof.
  destruct obj; simpl; try apply logs_only_raise. apply logs_only_ret.
Qed.

Ltac logs_only_steps :=
  repeat first
    [ apply logs_only_bind; [| intro]
    | apply logs_only_emit
    | apply logs_only_getitem
    | apply logs_only_dict_get
    | apply logs_only_ret
    | apply logs_only_raise ].

(** Dispatch only ever logs. *)
Lemma logs_only_handle_message P data : logs_only (handle_message P data).
Proof.
  unfold handle_message.
  apply logs_only_bind; [apply logs_only_dict_get | intro cmd].
  apply logs_only_bind; [apply logs_only_dict_get | intro evt].
  destruct (eq_str evt "READY"); [| destruct (eq_str cmd "DISPATCH")];
    unfold logger_info; logs_only_steps.
Qed.

Lemma logs_only_process P message : logs_only (process P message).
Proof.
  unfold process. apply logs_only_try_except.
  - apply logs_only_bind; [| intro; apply logs_only_handle_message].
    intro w. unfold returned, emitted. simpl.
    now rewrite app_nil_r, with_trace_same.
  - intros e k Hk. destruct e; inversion Hk; subst; clear Hk.
    unfold logger_error. logs_only_steps.
Qed.

Lemma sent_frames_app t t' : sent_frames (t ++ t') = sent_frames t ++ sent_frames t'.
Proof.
  induction t as [| ev t IH]; simpl; [reflexivity |].
  destruct ev as [lvl msg | io]; [exact IH |].
  destruct io; simpl; now rewrite ?IH.
Qed.

Lemma closed_handles_app t t' :
  closed_handles (t ++ t') = closed_handles t ++ closed_handles t'.
Proof.
  induction t as [| ev t IH]; simpl; [reflexivity |].
  destruct ev as [lvl msg | io]; [exact IH |].
  destruct io; simpl; now rewrite ?IH.
Qed.

Example default_url : url default_client = "ws://localhost:6463".
Proof. reflexivity. Qed.

(** Scenario A of the specification. *)
Example ready_alice_run :
  handle_message Sample.calm Sample.ready_alice (Sample.fresh []) =
  (Ok tt,
   with_trace (Sample.fresh [])
     [Log INFO [Lit "Discord RPC is ready!"];
      Log INFO [Lit "User: "; Val (JString "alice")];
      Log INFO [Lit "Config: "; Val (JObject [])]]).
Proof. reflexivity. Qed.

(** Scenario C of the specification. *)
Example malformed_then_dispatch_run :
  listen Sample.calm (Sample.connected ["not json"; Sample.frame_dispatch_x]) =
  (Ok tt,
   with_trace (Sample.connected [])
     [IO (Recv 1 "not json");
      Log INFO [Lit "Received: "; Val (JString "not json")];
      Log ERROR [Lit "Failed to parse JSON: ";
                 Exn (JSONDecodeError "Expecting value: line 1 column 1 (char 0)")];
      Log ERROR [Lit "Raw message: "; Val (JString "not json")];
      IO (Recv 1 Sample.frame_dispatch_x);
      Log INFO [Lit "Received: "; Val (JString Sample.frame_dispatch_x)];
      Log INFO [Lit "Dispatch event: "; Val (JString "X")];
      Log INFO [Lit "Data: "; Val (JString "<dict>")];
      IO (RecvEnd 1 None)]).
Proof. reflexivity. Qed.

(** ** Dispatch *)

Section Dispatch.

Variable P : Platform.

(** The branch of [handle_message] is decided by [evt] first. *)
Lemma handle_message_ready fields w :
  lookup "evt" fields = Some (JString "READY") ->
  handle_message P (JObject fields) w =
  (logger_info [Lit "Discord RPC is ready!"] ;;
   d <- getitem (JObject fields) "data" ;;
   u <- getitem d "user" ;;
   name <- getitem u "username" ;;
   logger_info [Lit "User: "; Val name] ;;
   d' <- getitem (JObject fields) "data" ;;
   c <- getitem d' "config" ;;
   logger_info [Lit "Config: "; Val c]) w.
Proof.
  intro Hevt. unfold handle_message, dict_get, get_or_none, bind at 1 2.
  simpl. now rewrite Hevt.
Qed.

(** C2.  An Envelope whose [evt] is ["READY"] is handled by the ready
    branch whatever its [cmd] is, ["DISPATCH"] included: the first record
    written is the ready announcement, every record written belongs to the
    ready branch, and none belongs to the generic-dispatch branch or to the
    unknown-message branch. *)
Theorem ready_has_priority fields w :
  lookup "evt" fields = Some (JString "READY") ->
  exists r more,
    handle_message P (JObject fields) w =
      (r, with_trace w (trace w ++ Log INFO [Lit "Discord RPC is ready!"] :: more))
    /\ forallb ready_record more = true
    /\ existsb dispatch_record more = false
    /\ existsb unknown_record more = false.
Proof.
  intro Hevt. rewrite (handle_message_ready fields w Hevt).
  unfold bind, logger_info, emit, getitem. simpl.
  destruct (lookup "data" fields) as [d |]; simpl;
    [| eexists _, []; repeat split; rewrite ?with_trace_with_trace; reflexivity].
  destruct d as [| b | n | bits | s | items | dfields]; simpl;
    try (eexists _, []; repeat split; reflexivity).
  destruct (lookup "user" dfields) as [u |]; simpl;
    [| eexists _, []; repeat split; reflexivity].
  destruct u as [| b | n | bits | s | items | ufields]; simpl;
    try (eexists _, []; repeat split; reflexivity).
  destruct (lookup "username" ufields) as [name |]; simpl;
    [| eexists _, []; repeat split; reflexivity].
  destruct (lookup "config" dfields) as [c |]; simpl.
  - exists (Ok tt), [Log INFO [Lit "User: "; Val name]; Log INFO [Lit "Config: "; Val c]].
    repeat split. now rewrite <- !app_assoc.
  - exists (Raise (KeyError "config")), [Log INFO [Lit "User: "; Val name]].
    repeat split. now rewrite <- !app_assoc.
Qed.

(** C9.  An Envelope that is neither a ready signal nor a generic dispatch,
    among them every Envelope with neither [cmd] nor [evt], is only logged:
    [handle_message] returns normally and the one thing it does is write an
    INFO record showing [cmd] and [evt], [None] standing for an absent
    field. *)
Theorem unknown_is_only_logged fields w :
  (lookup "cmd" fields = None /\ lookup "evt" fields = None)
  \/ (eq_str (get_or_none "evt" fields) "READY" = false
      /\ eq_str (get_or_none "cmd" fields) "DISPATCH" = false) ->
  handle_message P (JObject fields) w =
  (Ok tt,
   with_trace w
     (trace w ++ [Log INFO [Lit "Unknown message type - CMD: ";
                            Val (get_or_none "cmd" fields);
                            Lit ", EVT: ";
                            Val (get_or_none "evt" fields)]])).
Proof.
  intros [[Hcmd Hevt] | [Hevt Hcmd]];
    unfold handle_message, dict_get, bind at 1 2; simpl.
  - unfold get_or_none. now rewrite Hcmd, Hevt.
  - now rewrite Hevt, Hcmd.
Qed.

End Dispatch.

(** The Envelope of the claim at a concrete input: [evt] is ["READY"] and
    [cmd] is ["DISPATCH"]. *)
Lemma ready_has_priority_witness :
  lookup "evt" [("cmd", JString "DISPATCH"); ("evt", JString "READY")]
    = Some (JString "READY")
  /\ exists r more,
       handle_message Sample.calm Sample.ready_bare (Sample.fresh []) =
         (r, with_trace (Sample.fresh [])
               (trace (Sample.fresh []) ++ Log INFO [Lit "Discord RPC is ready!"] :: more))
       /\ forallb ready_record more = true
       /\ existsb dispatch_record more = false
       /\ existsb unknown_record more = false.
Proof.
  split; [reflexivity |].
  apply (ready_has_priority Sample.calm
           [("cmd", JString "DISPATCH"); ("evt", JString "READY")]
           (Sample.fresh [])).
  reflexivity.
Defined.

(** An Envelope with neither [cmd] nor [evt]. *)
Lemma unknown_is_only_logged_witness :
  (lookup "cmd" [("nonce", JString "n1")] = None
   /\ lookup "evt" [("nonce", JString "n1")] = None)
  /\ handle_message Sample.calm Sample.only_nonce (Sample.fresh []) =
     (Ok tt,
      with_trace (Sample.fresh [])
        [Log INFO [Lit "Unknown message type - CMD: "; Val JNull;
                   Lit ", EVT: "; Val JNull]]).
Proof.
  split; [split; reflexivity |].
  apply (unknown_is_only_logged Sample.calm [("nonce", JString "n1")] (Sample.fresh [])).
  left. split; reflexivity.
Defined.

(** ** The connection handle: [connect], [send_command], [close] *)

Section Session.

Variable P : Platform.

(** [send_command] on a client without a handle. *)
Lemma send_command_not_connected command w :
  websocket (self w) = None ->
  send_command P command w = (Ok tt, with_trace w (trace w ++ [usage_error])).
Proof. intro Hws. unfold send_command, bind. simpl. now rewrite Hws. Qed.

(** [send_command] on a client with a handle, when [json.dumps] raises:
    the transport is not called. *)
Lemma send_command_unserialisable command h e w :
  websocket (self w) = Some h ->
  json_dumps_raises P command = Some e ->
  send_command P command w =
  (Ok tt,
   with_trace w (trace w ++ [Log ERROR [Lit "Failed to send command: "; Exn e]])).
Proof.
  intros Hws Hdumps. unfold send_command, bind at 1. simpl. rewrite Hws.
  unfold try_except, bind, dumps. now rewrite Hdumps.
Qed.

(** [send_command] on a client with a handle, when [json.dumps] returns:
    one call of [websocket.send], then the record of its outcome. *)
Lemma send_command_connected command h w :
  websocket (self w) = Some h ->
  json_dumps_raises P command = None ->
  let message := json_dumps P None command in
  let answer := ws_send P (trace w) h message in
  send_command P command w =
  (Ok tt,
   with_trace w
     (trace w ++
      [IO (Send h message answer);
       match answer with
       | Ok _ => Log INFO [Lit "Sent: "; Val (JString message)]
       | Raise e => Log ERROR [Lit "Failed to send command: "; Exn e]
       end])).
Proof.
  intros Hws Hdumps. unfold send_command, bind at 1. simpl. rewrite Hws.
  unfold try_except, bind, dumps, websocket_send, logger_info, logger_error, emit.
  rewrite Hdumps. simpl.
  destruct (ws_send P (trace w) h (json_dumps P None command)) as [[] | e];
    simpl; now rewrite <- app_assoc.
Qed.

(** C4.  On a client without a connection handle, [send_command] and
    [listen] both return at once: all they do is log the usage error.  No
    transport event is added to the trace; the client object and the
    pending frames are left as they were. *)
Theorem no_handle_is_a_usage_error command w :
  websocket (self w) = None ->
  send_command P command w = (Ok tt, with_trace w (trace w ++ [usage_error]))
  /\ listen P w = (Ok tt, with_trace w (trace w ++ [usage_error])).
Proof.
  intro Hws. split.
  - now apply send_command_not_connected.
  - unfold listen, bind. simpl. now rewrite Hws.
Qed.

(** C5.  [send_activity_update] builds one Envelope, with [cmd] equal to
    ["SET_ACTIVITY"], [args] made of an integer [pid] and of the caller's
    payload under [activity], and [nonce] equal to ["activity-update"]; it
    behaves as [send_command] on that Envelope, and it hands the transport
    at most one frame: the serialised Envelope when the client has a
    handle and [json.dumps] accepts the Envelope, nothing otherwise. *)
Theorem activity_update_envelope activity w :
  exists pid : Z,
    let args := [("pid", JInt pid); ("activity", activity)] in
    let command := JObject [("cmd", JString "SET_ACTIVITY");
                            ("args", JObject args);
                            ("nonce", JString "activity-update")] in
    send_activity_update P activity w = send_command P command w
    /\ lookup "activity" args = Some activity
    /\ sent_frames (trace (snd (send_activity_update P activity w))) =
       sent_frames (trace w) ++
       match websocket (self w), json_dumps_raises P command with
       | Some _, None => [json_dumps P None command]
       | _, _ => []
       end.
Proof.
  exists 12345%Z. cbv zeta. split; [reflexivity |]. split; [reflexivity |].
  unfold send_activity_update.
  destruct (websocket (self w)) as [h |] eqn:Hws.
  - destruct (json_dumps_raises P _) as [e |] eqn:Hdumps.
    + rewrite (send_command_unserialisable _ h e w Hws Hdumps). simpl.
      now rewrite sent_frames_app.
    + rewrite (send_command_connected _ h w Hws Hdumps). simpl.
      rewrite sent_frames_app. simpl.
      now destruct (ws_send P (trace w) h _).
  - rewrite (send_command_not_connected _ w Hws). simpl.
    now rewrite sent_frames_app.
Qed.

End Session.

Lemma no_handle_is_a_usage_error_witness :
  websocket (self (Sample.fresh ["{}"])) = None
  /\ send_command Sample.calm (JObject [("cmd", JString "GET_GUILDS")])
       (Sample.fresh ["{}"])
     = (Ok tt, with_trace (Sample.fresh ["{}"]) [usage_error])
  /\ listen Sample.calm (Sample.fresh ["{}"])
     = (Ok tt, with_trace (Sample.fresh ["{}"]) [usage_error]).
Proof.
  split; [reflexivity |].
  apply (no_handle_is_a_usage_error Sample.calm
           (JObject [("cmd", JString "GET_GUILDS")]) (Sample.fresh ["{}"])).
  reflexivity.
Defined.

(** Scenario B of the specification. *)
Example activity_update_run :
  send_activity_update Sample.calm (JObject [("details", JString "Testing")])
    (Sample.connected []) =
  (Ok tt,
   with_trace (Sample.connected [])
     [IO (Send 1 "<dict>" (Ok tt));
      Log INFO [Lit "Sent: "; Val (JString "<dict>")]]).
Proof. reflexivity. Qed.

Section Lifecycle.

Variable P : Platform.

(** [close] on a client with a handle: one call of [websocket.close]; the
    record follows when the call returns, and its exception escapes when
    it raises.  The client object is not touched. *)
Lemma close_connected h w :
  websocket (self w) = Some h ->
  close P w =
  match ws_close P (trace w) h with
  | Ok _ =>
      (Ok tt,
       with_trace w (trace w ++ [IO (Close h (Ok tt));
                                 Log INFO [Lit "Connection closed"]]))
  | Raise e =>
      (Raise e, with_trace w (trace w ++ [IO (Close h (Raise e))]))
  end.
Proof.
  intro Hws. unfold close, bind at 1. simpl. rewrite Hws.
  unfold bind, websocket_close, logger_info, emit.
  destruct (ws_close P (trace w) h) as [[] | e]; simpl;
    [now rewrite <- app_assoc | reflexivity].
Qed.

Lemma close_not_connected w :
  websocket (self w) = None -> close P w = (Ok tt, w).
Proof. intro Hws. unfold close, bind. simpl. now rewrite Hws. Qed.

(** The world [close] leaves behind differs in the trace only, and the
    trace grows by the transport call and, at most, its log record. *)
Lemma close_connected_world h w :
  websocket (self w) = Some h ->
  exists records,
    snd (close P w) =
      with_trace w (trace w ++ IO (Close h (ws_close P (trace w) h)) :: records)
    /\ closed_handles records = [].
Proof.
  intro Hws. rewrite (close_connected h w Hws).
  destruct (ws_close P (trace w) h) as [[] | e]; simpl.
  - now exists [Log INFO [Lit "Connection closed"]].
  - now exists [].
Qed.

(** C1, as the code has it.  [close] on a client whose handle is present
    asks the transport to shut that handle down, once, and leaves the
    client object as it was: the handle is still there afterwards. *)
Theorem close_keeps_the_handle h w :
  websocket (self w) = Some h ->
  closed_handles (trace (snd (close P w))) = closed_handles (trace w) ++ [h]
  /\ self (snd (close P w)) = self w
  /\ websocket (self (snd (close P w))) = Some h.
Proof.
  intro Hws.
  destruct (close_connected_world h w Hws) as (records & -> & Hrecords).
  simpl. rewrite closed_handles_app. simpl. now rewrite Hrecords.
Qed.

(** C7, as the code has it.  [close] on a client without a handle does
    nothing and raises nothing.  [close] on a client with a handle leaves
    the handle in place, so that the next [close] calls the transport's
    [close] on it again. *)
Theorem close_again_calls_the_transport_again w :
  match websocket (self w) with
  | None => close P w = (Ok tt, w)
  | Some h =>
      let w1 := snd (close P w) in
      websocket (self w1) = Some h
      /\ closed_handles (trace (snd (close P w1))) =
         closed_handles (trace w) ++ [h; h]
  end.
Proof.
  destruct (websocket (self w)) as [h |] eqn:Hws.
  - cbv zeta.
    destruct (close_connected_world h w Hws) as (records & -> & Hrecords).
    split; [exact Hws |].
    destruct (close_connected_world h (with_trace w (trace w ++ IO (Close h (ws_close P (trace w) h)) :: records)) Hws)
      as (records' & -> & Hrecords').
    simpl. rewrite !closed_handles_app. simpl.
    rewrite Hrecords, Hrecords'. simpl. now rewrite <- app_assoc.
  - now apply close_not_connected.
Qed.

End Lifecycle.

Lemma close_keeps_the_handle_witness :
  websocket (self (Sample.connected [])) = Some 1
  /\ closed_handles (trace (snd (close Sample.calm (Sample.connected [])))) =
     closed_handles (trace (Sample.connected [])) ++ [1]
  /\ self (snd (close Sample.calm (Sample.connected []))) = self (Sample.connected [])
  /\ websocket (self (snd (close Sample.calm (Sample.connected [])))) = Some 1.
Proof.
  split; [reflexivity |].
  apply (close_keeps_the_handle Sample.calm 1 (Sample.connected [])).
  reflexivity.
Defined.

(** C1 as the specification states it fails: the handle is present before
    [close], the transport is asked to shut it down, and the handle is not
    absent afterwards. *)
Lemma close_clears_the_handle_counterexample :
  websocket (self (Sample.connected [])) = Some 1
  /\ close Sample.calm (Sample.connected []) =
     (Ok tt,
      with_trace (Sample.connected [])
        [IO (Close 1 (Ok tt)); Log INFO [Lit "Connection closed"]])
  /\ websocket (self (snd (close Sample.calm (Sample.connected [])))) <> None.
Proof.
  split; [reflexivity |]. split; [reflexivity |]. discriminate.
Qed.

(** C7 as the specification states it fails: two calls of [close] in
    succession on a connected client call the transport's [close] twice. *)
Lemma close_twice_counterexample :
  (close Sample.calm ;; close Sample.calm) (Sample.connected []) =
  (Ok tt,
   with_trace (Sample.connected [])
     [IO (Close 1 (Ok tt)); Log INFO [Lit "Connection closed"];
      IO (Close 1 (Ok tt)); Log INFO [Lit "Connection closed"]])
  /\ closed_handles
       (trace (snd ((close Sample.calm ;; close Sample.calm) (Sample.connected []))))
     = [1; 1].
Proof. split; reflexivity. Qed.

Section Connect.

Variable P : Platform.

(** [connect], by the answer of [websockets.connect]. *)
Lemma connect_outcome w :
  let t := trace w ++ [connecting w] in
  connect P w =
  match ws_connect P t (url (self w)) with
  | Ok h =>
      (Ok true,
       with_websocket
         (with_trace w (t ++ [IO (Connect (url (self w)) (Ok h));
                              Log INFO [Lit "Connected successfully!"]]))
         (Some h))
  | Raise e =>
      (Ok false,
       with_trace w (t ++ [IO (Connect (url (self w)) (Raise e));
                           Log ERROR [Lit "Failed to connect: "; Exn e]]))
  end.
Proof.
  cbv zeta. unfold connect, try_except, bind, websockets_connect, logger_info,
    logger_error, emit, connecting. simpl.
  destruct (ws_connect P _ (url (self w))) as [h | e]; simpl;
    now rewrite <- !app_assoc.
Qed.

(** C6, as the code has it.  On a freshly constructed client, [connect]
    never raises.  When the transport connects, it stores the handle and
    returns [True].  When the transport fails, it returns the bare [False]:
    the cause goes to the ERROR record and nowhere else, no handle is
    stored, and a following [send_command] reports the usage error. *)
Theorem connect_returns_a_boolean w command :
  websocket (self w) = None ->
  let t := trace w ++ [connecting w] in
  match ws_connect P t (url (self w)) with
  | Ok h =>
      fst (connect P w) = Ok true
      /\ websocket (self (snd (connect P w))) = Some h
  | Raise e =>
      connect P w =
        (Ok false,
         with_trace w (t ++ [IO (Connect (url (self w)) (Raise e));
                             Log ERROR [Lit "Failed to connect: "; Exn e]]))
      /\ websocket (self (snd (connect P w))) = None
      /\ send_command P command (snd (connect P w)) =
         (Ok tt,
          with_trace w (t ++ [IO (Connect (url (self w)) (Raise e));
                              Log ERROR [Lit "Failed to connect: "; Exn e];
                              usage_error]))
  end.
Proof.
  intro Hws. cbv zeta. rewrite (connect_outcome w). cbv zeta.
  destruct (ws_connect P _ (url (self w))) as [h | e]; simpl.
  - split; reflexivity.
  - split; [reflexivity |]. split; [exact Hws |].
    rewrite send_command_not_connected by exact Hws.
    simpl. rewrite <- !app_assoc. reflexivity.
Qed.

End Connect.

Lemma connect_returns_a_boolean_witness :
  websocket (self (Sample.fresh [])) = None
  /\ connect (Sample.failing Sample.refused) (Sample.fresh []) =
     (Ok false,
      with_trace (Sample.fresh [])
        [Log INFO [Lit "Connecting to "; Val (JString "ws://localhost:6463")];
         IO (Connect "ws://localhost:6463" (Raise Sample.refused));
         Log ERROR [Lit "Failed to connect: "; Exn Sample.refused]])
  /\ websocket (self (snd (connect (Sample.failing Sample.refused) (Sample.fresh []))))
     = None
  /\ send_command (Sample.failing Sample.refused) (JObject [("cmd", JString "GET_GUILDS")])
       (snd (connect (Sample.failing Sample.refused) (Sample.fresh []))) =
     (Ok tt,
      with_trace (Sample.fresh [])
        [Log INFO [Lit "Connecting to "; Val (JString "ws://localhost:6463")];
         IO (Connect "ws://localhost:6463" (Raise Sample.refused));
         Log ERROR [Lit "Failed to connect: "; Exn Sample.refused];
         usage_error]).
Proof.
  split; [reflexivity |].
  apply (connect_returns_a_boolean (Sample.failing Sample.refused) (Sample.fresh [])
           (JObject [("cmd", JString "GET_GUILDS")])).
  reflexivity.
Defined.

(** C6 as the specification states it fails: two transport failures with
    different causes make [connect] return the same value, [False], which
    therefore carries neither cause. *)
Lemma connect_result_carries_no_cause_counterexample :
  Sample.refused <> Sample.timed_out
  /\ fst (connect (Sample.failing Sample.refused) (Sample.fresh [])) = Ok false
  /\ fst (connect (Sample.failing Sample.timed_out) (Sample.fresh [])) = Ok false.
Proof. split; [discriminate |]. split; reflexivity. Qed.

(** ** The receive loop *)

Section Listen.

Variable P : Platform.


Lemma process_dispatched frame data w :
  json_loads P frame = Ok data ->
  returned (handle_message P data) = Ok tt ->
  process P frame w =
  (Ok tt, with_trace w (trace w ++ emitted (handle_message P data))).
Proof.
  intros Hloads Hret. unfold process, try_except, bind, lift. rewrite Hloads.
  rewrite (logs_only_handle_message P data w), Hret. reflexivity.
Qed.

(** One turn of the loop, when the body returns. *)
Lemma listen_loop_turn h frame rest w events :
  (forall w', process P frame w' = (Ok tt, with_trace w' (trace w' ++ events))) ->
  listen_loop P h (frame :: rest) w =
  listen_loop P h rest
    (with_inbox (with_trace w (trace w ++ received h frame ++ events)) rest).
Proof.
  intro Hbody. simpl. unfold bind at 1 2 3, deliver, logger_info, emit. simpl.
  rewrite Hbody. simpl. unfold received. simpl.
  now rewrite <- !app_assoc.
Qed.

(** [listen] with a handle is the loop under the two outer [except]
    clauses; it depends on the world through the loop only. *)
Lemma listen_connected h w w' :
  websocket (self w) = Some h ->
  websocket (self w') = Some h ->
  listen_loop P h (inbox w) w = listen_loop P h (inbox w') w' ->
  listen P w = listen P w'.
Proof.
  intros Hws Hws' Hloop. unfold listen, bind. simpl. rewrite Hws, Hws'.
  unfold try_except. now rewrite Hloop.
Qed.

(** No exception leaves [listen]. *)
Lemma listen_never_raises w : fst (listen P w) = Ok tt.
Proof.
  unfold listen, bind. simpl.
  destruct (websocket (self w)) as [h |]; [| reflexivity].
  unfold try_except.
  destruct (listen_loop P h (inbox w) w) as [[[] | e] w']; [reflexivity |].
  destruct e; reflexivity.
Qed.

End Listen.

Example three_frames_run :
  listen Sample.calm (Sample.connected (map fst Sample.three_frames)) =
  (Ok tt,
   with_trace (Sample.connected [])
     [IO (Recv 1 Sample.frame_dispatch_x);
      Log INFO [Lit "Received: "; Val (JString Sample.frame_dispatch_x)];
      Log INFO [Lit "Dispatch event: "; Val (JString "X")];
      Log INFO [Lit "Data: "; Val (JString "<dict>")];
      IO (Recv 1 Sample.frame_only_nonce);
      Log INFO [Lit "Received: "; Val (JString Sample.frame_only_nonce)];
      Log INFO [Lit "Unknown message type - CMD: "; Val JNull;
                Lit ", EVT: "; Val JNull];
      IO (Recv 1 Sample.frame_ready_alice);
      Log INFO [Lit "Received: "; Val (JString Sample.frame_ready_alice)];
      Log INFO [Lit "Discord RPC is ready!"];
      Log INFO [Lit "User: "; Val (JString "alice")];
      Log INFO [Lit "Config: "; Val (JObject [])];
      IO (RecvEnd 1 None)]).
Proof. reflexivity. Qed.

Example missing_payload_run :
  listen Sample.calm
    (Sample.connected [Sample.frame_ready_bare; Sample.frame_dispatch_x]) =
  (Ok tt,
   with_trace (Sample.connected [Sample.frame_dispatch_x])
     [IO (Recv 1 Sample.frame_ready_bare);
      Log INFO [Lit "Received: "; Val (JString Sample.frame_ready_bare)];
      Log INFO [Lit "Discord RPC is ready!"];
      Log ERROR [Lit "Error while listening: "; Exn (KeyError "data")]]).
Proof. reflexivity. Qed.

(** Beside the theorem: a frame that is valid JSON but not a dict stops
    the loop as well, with the [AttributeError] of [data.get]. *)
Example non_dict_frame_run :
  listen Sample.calm (Sample.connected ["[]"; Sample.frame_dispatch_x]) =
  (Ok tt,
   with_trace (Sample.connected [Sample.frame_dispatch_x])
     [IO (Recv 1 "[]");
      Log INFO [Lit "Received: "; Val (JString "[]")];
      Log ERROR [Lit "Error while listening: "; Exn (AttributeError "list" "get")]]).
Proof. reflexivity. Qed.

(** And a ready Envelope whose [data] is there but is no dict makes the
    subscript raise [TypeError], not [KeyError]. *)
Example ready_with_null_data_run :
  handle_message Sample.calm
    (JObject [("evt", JString "READY"); ("data", JNull)]) (Sample.fresh []) =
  (Raise (TypeError "NoneType"),
   with_trace (Sample.fresh []) [Log INFO [Lit "Discord RPC is ready!"]]).
Proof. reflexivity. Qed.

(** ** Beyond the claims: what the routines leave behind *)

Lemma io_events_app t t' : io_events (t ++ t') = io_events t ++ io_events t'.
Proof.
  induction t as [| [lvl msg | io] t IH]; simpl; [reflexivity | exact IH |].
  now rewrite IH.
Qed.

Lemma logs_have_no_io evs : forallb is_log evs = true -> io_events evs = [].
Proof.
  induction evs as [| [lvl msg | io] evs IH]; simpl; [reflexivity | exact IH |].
  discriminate.
Qed.

Lemma sent_frames_of_logs evs : io_events evs = [] -> sent_frames evs = [].
Proof.
  induction evs as [| [lvl msg | io] evs IH]; simpl; [reflexivity | exact IH |].
  discriminate.
Qed.

Lemma closed_handles_of_logs evs : io_events evs = [] -> closed_handles evs = [].
Proof.
  induction evs as [| [lvl msg | io] evs IH]; simpl; [reflexivity | exact IH |].
  discriminate.
Qed.

Lemma forallb_weaken {A} (f g : A -> bool) l :
  (forall a, f a = true -> g a = true) ->
  forallb f l = true -> forallb g l = true.
Proof.
  intros Hfg. induction l as [| a l IH]; simpl; [reflexivity |].
  intro H. apply andb_true_iff in H as [Ha Hl].
  now rewrite (Hfg a Ha), (IH Hl).
Qed.

Lemma writes_weaken {A} (f g : event -> bool) (m : M A) :
  (forall ev, f ev = true -> g ev = true) -> writes f m -> writes g m.
Proof.
  intros Hfg Hm w. destruct (Hm w) as (r & evs & Heq & Hevs).
  exists r, evs. split; [exact Heq |]. now apply (forallb_weaken f g).
Qed.

Lemma writes_ret {A} ok (a : A) : writes ok (ret a).
Proof.
  intro w. exists (Ok a), []. simpl.
  now rewrite app_nil_r, with_trace_same.
Qed.

Lemma writes_raise {A} ok (e : exn) : writes ok (@raise A e).
Proof.
  intro w. exists (Raise e), []. simpl.
  now rewrite app_nil_r, with_trace_same.
Qed.

Lemma writes_lift {A} ok (r : result A) : writes ok (lift r).
Proof.
  intro w. exists r, []. simpl.
  now rewrite app_nil_r, with_trace_same.
Qed.

Lemma writes_emit (ok : event -> bool) ev : ok ev = true -> writes ok (emit ev).
Proof.
  intros Hev w. exists (Ok tt), [ev]. split; [reflexivity |].
  simpl. now rewrite Hev.
Qed.

Lemma writes_bind {A B} ok (m : M A) (k : A -> M B) :
  writes ok m -> (forall a, writes ok (k a)) -> writes ok (bind m k).
Proof.
  intros Hm Hk w. unfold bind.
  destruct (Hm w) as (r & evs & -> & Hevs).
  destruct r as [a | e].
  - destruct (Hk a (with_trace w (trace w ++ evs))) as (r' & evs' & -> & Hevs').
    exists r', (evs ++ evs'). simpl. rewrite app_assoc. split; [reflexivity |].
    now rewrite forallb_app, Hevs, Hevs'.
  - now exists (Raise e), evs.
Qed.

Lemma writes_try_except {A} ok (m : M A) handler :
  writes ok m ->
  (forall e k, handler e = Some k -> writes ok k) ->
  writes ok (try_except m handler).
Proof.
  intros Hm Hh w. unfold try_except.
  destruct (Hm w) as (r & evs & -> & Hevs).
  destruct r as [a | e]; [now exists (Ok a), evs |].
  destruct (handler e) as [k |] eqn:Hk; [| now exists (Raise e), evs].
  destruct (Hh e k Hk (with_trace w (trace w ++ evs))) as (r' & evs' & -> & Hevs').
  exists r', (evs ++ evs'). simpl. rewrite app_assoc. split; [reflexivity |].
  now rewrite forallb_app, Hevs, Hevs'.
Qed.

Lemma writes_getitem ok obj key : writes ok (getitem obj key).
Proof.
  destruct obj; simpl; try apply writes_raise.
  destruct (lookup key fields); [apply writes_ret | apply writes_raise].
Qed.

Lemma writes_dict_get ok obj key : writes ok (dict_get obj key).
Proof. destruct obj; simpl; try apply writes_raise. apply writes_ret. Qed.

Ltac writes_steps :=
  repeat first
    [ apply writes_bind; [| intro]
    | apply writes_emit; reflexivity
    | apply writes_getitem
    | apply writes_dict_get
    | apply writes_lift
    | apply writes_ret
    | apply writes_raise ].

Section Quiet.

Variable P : Platform.

Lemma writes_info_handle_message data : writes is_info (handle_message P data).
Proof.
  unfold handle_message.
  apply writes_bind; [apply writes_dict_get | intro cmd].
  apply writes_bind; [apply writes_dict_get | intro evt].
  destruct (eq_str evt "READY"); [| destruct (eq_str cmd "DISPATCH")];
    unfold logger_info; writes_steps.
Qed.

Lemma writes_handle_message data : writes is_log (handle_message P data).
Proof.
  apply (writes_weaken is_info); [| apply writes_info_handle_message].
  now intros [[] msg | io].
Qed.

Lemma writes_process message : writes is_log (process P message).
Proof.
  unfold process. apply writes_try_except.
  - apply writes_bind; [apply writes_lift | intro; apply writes_handle_message].
  - intros e k Hk. destruct e; inversion Hk; subst; clear Hk.
    unfold logger_error. writes_steps.
Qed.

(** X1.  Whatever the Envelope, [handle_message] does nothing but write
    INFO records: it makes no transport call, and it leaves the client,
    the handle and the pending frames alone. *)
Theorem handle_message_only_logs data w :
  exists r records,
    handle_message P data w = (r, with_trace w (trace w ++ records))
    /\ forallb is_info records = true.
Proof. apply writes_info_handle_message. Qed.

(** The exceptions of [handle_message] are those of [data.get] and of the
    subscripts. *)
Lemma handle_message_raises data e :
  returned (handle_message P data) = Raise e -> dispatch_exn e = true.
Proof.
  unfold returned, handle_message, dict_get, getitem, bind, logger_info, emit.
  destruct data; simpl; try (intro H; inversion H; reflexivity).
  repeat match goal with
         | |- context [if ?c then _ else _] => destruct c; simpl
         | |- context [match lookup ?k ?l with _ => _ end] =>
             destruct (lookup k l); simpl
         | |- context [match ?v with JNull => _ | _ => _ end] =>
             destruct v; simpl
         end;
    intro H; inversion H; reflexivity.
Qed.

End Quiet.

Section Branches.

Variable P : Platform.

(** X2.  A generic dispatch that carries [data] is logged in two INFO
    records, the event name and then the payload as [json.dumps] prints
    it with [indent=2]; [handle_message] returns normally.  The event name
    need not be a string: an absent [evt] is shown as [None]. *)
Theorem dispatch_is_logged fields d w :
  eq_str (get_or_none "evt" fields) "READY" = false ->
  lookup "cmd" fields = Some (JString "DISPATCH") ->
  lookup "data" fields = Some d ->
  handle_message P (JObject fields) w =
  (Ok tt,
   with_trace w
     (trace w ++
      [Log INFO [Lit "Dispatch event: "; Val (get_or_none "evt" fields)];
       Log INFO [Lit "Data: "; Val (JString (json_dumps P (Some 2%Z) d))]])).
Proof.
  intros Hevt Hcmd Hdata.
  unfold handle_message, dict_get, getitem, bind, logger_info, emit. simpl.
  rewrite Hevt. unfold get_or_none at 1. rewrite Hcmd. simpl. rewrite Hdata.
  simpl. now rewrite <- app_assoc.
Qed.

(** X3.  A ready signal whose [data] holds [user.username] and [config]
    is logged in three INFO records, the announcement, the user name and
    the configuration, and [handle_message] returns normally; the values
    are shown as they are, whatever their type. *)
Theorem ready_is_logged fields d u name c w :
  lookup "evt" fields = Some (JString "READY") ->
  lookup "data" fields = Some (JObject d) ->
  lookup "user" d = Some (JObject u) ->
  lookup "username" u = Some name ->
  lookup "config" d = Some c ->
  handle_message P (JObject fields) w =
  (Ok tt,
   with_trace w
     (trace w ++
      [Log INFO [Lit "Discord RPC is ready!"];
       Log INFO [Lit "User: "; Val name];
       Log INFO [Lit "Config: "; Val c]])).
Proof.
  intros Hevt Hdata Huser Hname Hconfig.
  rewrite (handle_message_ready P fields w Hevt).
  unfold getitem, bind, logger_info, emit. simpl.
  rewrite Hdata. simpl. rewrite Huser. simpl. rewrite Hname. simpl.
  rewrite Hconfig. simpl. now rewrite <- !app_assoc.
Qed.

Lemma process_raises frame data e w :
  json_loads P frame = Ok data ->
  returned (handle_message P data) = Raise e ->
  process P frame w =
  (Raise e, with_trace w (trace w ++ emitted (handle_message P data))).
Proof.
  intros Hloads Hret. unfold process, try_except, bind, lift. rewrite Hloads.
  rewrite (logs_only_handle_message P data w), Hret.
  pose proof (handle_message_raises P data e Hret) as Hkind.
  destruct e; try discriminate Hkind; reflexivity.
Qed.

Lemma listen_stops_on frame rest h e events w :
  websocket (self w) = Some h ->
  inbox w = frame :: rest ->
  (forall w', process P frame w' = (Raise e, with_trace w' (trace w' ++ events))) ->
  listen P w =
  (Ok tt,
   with_inbox
     (with_trace w (trace w ++ received h frame ++ events ++ [listen_closing e]))
     rest).
Proof.
  intros Hws Hinbox Hbody.
  unfold listen, bind at 1. simpl. rewrite Hws. unfold try_except.
  rewrite Hinbox. simpl.
  unfold bind at 1 2 3, deliver, logger_info, emit. simpl.
  rewrite Hbody. unfold listen_closing, listen_error.
  destruct e; unfold logger_info, logger_error, emit; simpl;
    now rewrite <- !app_assoc.
Qed.

(** X4.  Every exception [handle_message] raises for a decoded frame, a
    missing key or a value of the wrong type alike, passes the inner
    [except] clause and ends the receive loop: [listen] logs it as an
    error while listening and returns, and the frames after it are never
    taken from the transport. *)
Theorem dispatch_exception_ends_the_loop h frame data e rest w :
  json_loads P frame = Ok data ->
  returned (handle_message P data) = Raise e ->
  websocket (self w) = Some h ->
  inbox w = frame :: rest ->
  listen P w =
  (Ok tt,
   with_inbox
     (with_trace w
        (trace w ++ received h frame
           ++ emitted (handle_message P data) ++ [listen_error e]))
     rest).
Proof.
  intros Hloads Hret Hws Hinbox.
  rewrite (listen_stops_on frame rest h e (emitted (handle_message P data)) w
             Hws Hinbox)
    by (intro w'; now apply process_raises).
  pose proof (handle_message_raises P data e Hret) as Hkind.
  destruct e; try discriminate Hkind; reflexivity.
Qed.

(** X5.  A frame that is valid JSON but not an object (a list, a string,
    a number, [null]) has no [get]: the [AttributeError] ends the receive
    loop before anything is dispatched, and the frames after it stay with
    the transport. *)
Theorem non_object_frame_ends_the_loop h frame data rest w :
  json_loads P frame = Ok data ->
  type_name data <> "dict" ->
  websocket (self w) = Some h ->
  inbox w = frame :: rest ->
  listen P w =
  (Ok tt,
   with_inbox
     (with_trace w
        (trace w ++ received h frame
           ++ [listen_error (AttributeError (type_name data) "get")]))
     rest).
Proof.
  intros Hloads Htype Hws Hinbox.
  rewrite (listen_stops_on frame rest h (AttributeError (type_name data) "get") [] w
             Hws Hinbox); [reflexivity |].
  intro w'. unfold process, try_except, bind, lift. rewrite Hloads.
  destruct data; simpl; try (now rewrite app_nil_r, with_trace_same).
Qed.

(** X6.  An exception of [json.loads] other than [JSONDecodeError] is not
    a decode error for the loop: it is not skipped, it ends [listen], which
    logs it (as a closed connection if it is a [ConnectionClosed], as an
    error while listening otherwise) and returns. *)
Theorem other_decoder_exception_ends_the_loop h frame e rest w :
  json_loads P frame = Raise e ->
  (forall msg, e <> JSONDecodeError msg) ->
  websocket (self w) = Some h ->
  inbox w = frame :: rest ->
  listen P w =
  (Ok tt,
   with_inbox
     (with_trace w (trace w ++ received h frame ++ [listen_closing e]))
     rest).
Proof.
  intros Hloads Hkind Hws Hinbox.
  rewrite (listen_stops_on frame rest h e [] w Hws Hinbox); [reflexivity |].
  intro w'. unfold process, try_except, bind, lift. rewrite Hloads.
  destruct e; try (now rewrite app_nil_r, with_trace_same).
  now elim (Hkind msg).
Qed.

End Branches.

(** ** Footprints *)

Lemma requests_app t t' : requests (t ++ t') = requests t ++ requests t'.
Proof.
  induction t as [| [lvl msg | io] t IH]; simpl; [reflexivity | exact IH |].
  destruct io; simpl; now rewrite ?IH.
Qed.

Lemma requests_of_logs evs : forallb is_log evs = true -> requests evs = [].
Proof.
  induction evs as [| [lvl msg | io] evs IH]; simpl; [reflexivity | exact IH |].
  discriminate.
Qed.

Lemma sent_frames_requests t : sent_frames t = frames_of (requests t).
Proof.
  induction t as [| [lvl msg | io] t IH]; simpl; [reflexivity | exact IH |].
  destruct io; simpl; now rewrite ?IH.
Qed.

Lemma closed_handles_requests t : closed_handles t = handles_of (requests t).
Proof.
  induction t as [| [lvl msg | io] t IH]; simpl; [reflexivity | exact IH |].
  destruct io; simpl; now rewrite ?IH.
Qed.

Lemma footprint_refl w : footprint w w [].
Proof.
  unfold footprint. repeat split.
  - exists []. now rewrite app_nil_r.
  - now exists [].
Qed.

Lemma footprint_trans w w1 w2 asked1 asked2 :
  footprint w w1 asked1 -> footprint w1 w2 asked2 ->
  footprint w w2 (asked1 ++ asked2).
Proof.
  intros (Hself & Hend & (more & Htrace & Hasked) & taken & Htaken)
         (Hself' & Hend' & (more' & Htrace' & Hasked') & taken' & Htaken').
  unfold footprint. rewrite Hself', Hend'. repeat split; try assumption.
  - exists (more ++ more'). rewrite Htrace', Htrace, app_assoc.
    split; [reflexivity |]. now rewrite requests_app, Hasked, Hasked'.
  - exists (taken ++ taken'). now rewrite Htaken, Htaken', app_assoc.
Qed.

Lemma footprint_then w w1 w2 asked :
  footprint w w1 asked -> footprint w1 w2 [] -> footprint w w2 asked.
Proof.
  intros H1 H2. pose proof (footprint_trans _ _ _ _ _ H1 H2) as H.
  now rewrite app_nil_r in H.
Qed.

Lemma footprint_add w evs :
  footprint w (with_trace w (trace w ++ evs)) (requests evs).
Proof.
  unfold footprint. simpl. repeat split; [now exists evs | now exists []].
Qed.

Lemma footprint_logs w evs :
  forallb is_log evs = true ->
  footprint w (with_trace w (trace w ++ evs)) [].
Proof.
  intro Hevs. rewrite <- (requests_of_logs evs Hevs). apply footprint_add.
Qed.

Lemma footprint_writes {A} (m : M A) w :
  writes is_log m -> footprint w (snd (m w)) [].
Proof.
  intro Hm. destruct (Hm w) as (r & evs & -> & Hevs). now apply footprint_logs.
Qed.

Lemma footprint_taken h frame rest w :
  inbox w = frame :: rest ->
  footprint w (with_inbox (with_trace w (trace w ++ received h frame)) rest) [].
Proof.
  intro Hinbox. unfold footprint. simpl. repeat split.
  - now exists (received h frame).
  - now exists [frame].
Qed.

Lemma footprint_end_of_frames h w :
  footprint w (snd (end_of_frames h w)) [].
Proof.
  unfold end_of_frames.
  pose proof (footprint_add w [IO (RecvEnd h (inbox_end w))]) as H.
  now destruct (inbox_end w).
Qed.

(** What a footprint says of the two readings of the trace. *)
Lemma footprint_sent_closed w w' asked :
  footprint w w' asked ->
  sent_frames (trace w') = sent_frames (trace w) ++ frames_of asked
  /\ closed_handles (trace w') = closed_handles (trace w) ++ handles_of asked.
Proof.
  intros (_ & _ & (more & -> & <-) & _).
  rewrite !sent_frames_requests, !closed_handles_requests, requests_app.
  unfold frames_of, handles_of. now rewrite !flat_map_app.
Qed.

Section Loops.

Variable P : Platform.

(** One turn of the loop of [listen], up to what follows the body. *)
Lemma loop_turn {A} h frame rest (k : M A) w :
  (deliver h frame rest ;;
   logger_info [Lit "Received: "; Val (JString frame)] ;;
   process P frame ;;
   k) w =
  match process P frame
          (with_inbox (with_trace w (trace w ++ received h frame)) rest) with
  | (Ok _, w') => k w'
  | (Raise e, w') => (Raise e, w')
  end.
Proof.
  unfold bind at 1 2, deliver, logger_info, emit. simpl.
  unfold bind, received. simpl. now rewrite <- app_assoc.
Qed.

Lemma footprint_turn h frame rest w :
  inbox w = frame :: rest ->
  let w1 := with_inbox (with_trace w (trace w ++ received h frame)) rest in
  footprint w (snd (process P frame w1)) []
  /\ inbox (snd (process P frame w1)) = rest.
Proof.
  intros Hinbox w1. split.
  - apply (footprint_then w w1); [now apply footprint_taken |].
    apply footprint_writes, writes_process.
  - destruct (writes_process P frame w1) as (r & evs & -> & _). reflexivity.
Qed.

Lemma listen_loop_footprint h frames :
  forall w, inbox w = frames ->
            footprint w (snd (listen_loop P h frames w)) [].
Proof.
  induction frames as [| frame rest IH]; intros w Hinbox.
  - apply footprint_end_of_frames.
  - simpl. rewrite loop_turn.
    destruct (footprint_turn h frame rest w Hinbox) as [Hfoot Hrest].
    destruct (process P frame _) as [[[] | e] w']; simpl in *; [| exact Hfoot].
    apply (footprint_then w w'); [exact Hfoot | now apply IH].
Qed.

Lemma listen_loop_within_footprint h steps :
  forall frames w, inbox w = frames ->
    footprint w (snd (listen_loop_within P h steps frames w)) [].
Proof.
  induction steps as [| steps IH]; intros frames w Hinbox; simpl.
  - apply footprint_refl.
  - destruct frames as [| frame rest].
    + unfold bind. pose proof (footprint_end_of_frames h w) as H.
      now destruct (end_of_frames h w) as [[[] | e] w'].
    + rewrite loop_turn.
      destruct (footprint_turn h frame rest w Hinbox) as [Hfoot Hrest].
      destruct (process P frame _) as [[[] | e] w']; simpl in *; [| exact Hfoot].
      apply (footprint_then w w'); [exact Hfoot | now apply IH].
Qed.

(** The first thing the loop adds to the trace is the next step of the
    frame iterator. *)
Lemma listen_loop_head h frames w :
  inbox w = frames ->
  exists more,
    trace (snd (listen_loop P h frames w)) =
    trace w ++ next_step h frames (inbox_end w) :: more.
Proof.
  intro Hinbox. destruct frames as [| frame rest]; simpl.
  - unfold end_of_frames. exists []. now destruct (inbox_end w).
  - rewrite loop_turn.
    set (w1 := with_inbox (with_trace w (trace w ++ received h frame)) rest).
    destruct (writes_process P frame w1) as (r & evs & Hrun & _).
    rewrite Hrun. destruct r as [[] | e].
    + destruct (listen_loop_footprint h rest (with_trace w1 (trace w1 ++ evs)) eq_refl)
        as (_ & _ & (more & -> & _) & _).
      exists (Log INFO [Lit "Received: "; Val (JString frame)] :: evs ++ more).
      unfold w1, received. simpl. now rewrite <- !app_assoc.
    + exists (Log INFO [Lit "Received: "; Val (JString frame)] :: evs).
      unfold w1, received. simpl. now rewrite <- !app_assoc.
Qed.

Lemma listen_head h w :
  websocket (self w) = Some h ->
  exists more,
    trace (snd (listen P w)) =
    trace w ++ next_step h (inbox w) (inbox_end w) :: more.
Proof.
  intro Hws. unfold listen, bind. simpl. rewrite Hws. unfold try_except.
  destruct (listen_loop_head h (inbox w) w eq_refl) as (more & Hhead).
  destruct (listen_loop P h (inbox w) w) as [[[] | e] w']; simpl in Hhead.
  - now exists more.
  - exists (more ++ [listen_closing e]).
    destruct e; unfold logger_info, logger_error, emit; simpl; rewrite Hhead;
      now rewrite <- app_assoc.
Qed.

End Loops.

Section Contained.

Variable P : Platform.

Lemma listen_footprint w :
  fst (listen P w) = Ok tt /\ footprint w (snd (listen P w)) [].
Proof.
  unfold listen, bind. simpl.
  destruct (websocket (self w)) as [h |].
  - unfold try_except.
    pose proof (listen_loop_footprint P h (inbox w) w eq_refl) as Hloop.
    destruct (listen_loop P h (inbox w) w) as [[[] | e] w']; simpl in Hloop;
      [now split |].
    destruct e; simpl; (split; [reflexivity |]);
      apply (footprint_then w w'); try exact Hloop;
      now apply footprint_logs.
  - split; [reflexivity |]. now apply footprint_logs.
Qed.

(** X7.  [listen] only receives.  On every world it returns normally, and
    it neither sends a frame nor closes a handle nor changes the client
    object; the frames it has taken are a prefix of the pending ones, so
    those it leaves are still in their order. *)
Theorem listen_only_receives w :
  fst (listen P w) = Ok tt
  /\ self (snd (listen P w)) = self w
  /\ sent_frames (trace (snd (listen P w))) = sent_frames (trace w)
  /\ closed_handles (trace (snd (listen P w))) = closed_handles (trace w)
  /\ exists taken, inbox w = taken ++ inbox (snd (listen P w)).
Proof.
  destruct (listen_footprint w) as (Hret & Hfoot).
  destruct (footprint_sent_closed _ _ _ Hfoot) as (Hsent & Hclosed).
  destruct Hfoot as (Hself & _ & _ & Htaken).
  simpl in Hsent, Hclosed. rewrite app_nil_r in Hsent, Hclosed.
  now repeat split.
Qed.

(** X8.  How the loop ends when no frame is left.  If the iterator stops,
    [listen] returns without a further record; if it raises a
    [ConnectionClosed], [listen] logs at INFO that the server closed the
    connection; if it raises anything else, [listen] logs the error.  In
    all three cases [listen] returns normally. *)
Theorem listen_end_of_stream h w :
  websocket (self w) = Some h ->
  inbox w = [] ->
  listen P w =
  (Ok tt,
   with_trace w
     (trace w ++ IO (RecvEnd h (inbox_end w)) ::
        match inbox_end w with
        | None => []
        | Some (ConnectionClosed _ _) =>
            [Log INFO [Lit "Connection closed by server"]]
        | Some e => [Log ERROR [Lit "Error while listening: "; Exn e]]
        end)).
Proof.
  intros Hws Hinbox. unfold listen, bind. simpl. rewrite Hws.
  unfold try_except. rewrite Hinbox. simpl. unfold end_of_frames.
  destruct (inbox_end w) as [e |]; [| reflexivity].
  destruct e; unfold logger_info, logger_error, emit; simpl;
    now rewrite <- app_assoc.
Qed.

(** What [send_command] asks of the transport: the serialised command on
    the handle, when there is a handle and [json.dumps] returns. *)
Lemma send_command_footprint command w :
  fst (send_command P command w) = Ok tt
  /\ inbox (snd (send_command P command w)) = inbox w
  /\ footprint w (snd (send_command P command w))
       match websocket (self w), json_dumps_raises P command with
       | Some h, None => [Sending h (json_dumps P None command)]
       | _, _ => []
       end.
Proof.
  destruct (websocket (self w)) as [h |] eqn:Hws.
  - destruct (json_dumps_raises P command) as [e |] eqn:Hdumps.
    + rewrite (send_command_unserialisable P command h e w Hws Hdumps). simpl.
      split; [reflexivity |]. split; [reflexivity |]. now apply footprint_logs.
    + rewrite (send_command_connected P command h w Hws Hdumps). simpl.
      split; [reflexivity |]. split; [reflexivity |].
      match goal with
      | |- footprint w (with_trace w (trace w ++ ?evs)) _ =>
          pose proof (footprint_add w evs) as H
      end.
      simpl in H.
      now destruct (ws_send P (trace w) h (json_dumps P None command)).
  - rewrite (send_command_not_connected P command w Hws). simpl.
    split; [reflexivity |]. split; [reflexivity |]. now apply footprint_logs.
Qed.

(** X9.  [send_command] never raises and never retries.  Whatever
    [json.dumps] and the transport answer, it returns normally, the client
    object and the pending frames are as before, no handle is closed, and
    the transport was handed at most one frame: the serialised command,
    once, if there is a handle and [json.dumps] returned, and nothing if
    there is no handle or [json.dumps] raised. *)
Theorem send_command_is_contained command w :
  fst (send_command P command w) = Ok tt
  /\ self (snd (send_command P command w)) = self w
  /\ inbox (snd (send_command P command w)) = inbox w
  /\ closed_handles (trace (snd (send_command P command w))) =
     closed_handles (trace w)
  /\ sent_frames (trace (snd (send_command P command w))) =
     sent_frames (trace w) ++
     match websocket (self w), json_dumps_raises P command with
     | Some _, None => [json_dumps P None command]
     | _, _ => []
     end.
Proof.
  destruct (send_command_footprint command w) as (Hret & Hinbox & Hfoot).
  destruct (footprint_sent_closed _ _ _ Hfoot) as (Hsent & Hclosed).
  destruct Hfoot as (Hself & _).
  split; [exact Hret |]. split; [exact Hself |]. split; [exact Hinbox |].
  rewrite Hsent, Hclosed.
  destruct (websocket (self w)), (json_dumps_raises P command); simpl;
    now rewrite ?app_nil_r.
Qed.

(** X10.  A failure of [websocket.send] is caught: when [json.dumps] has
    returned the frame and [websocket.send] raises on it, [send_command]
    logs the cause in one ERROR record after the failed call, writes no
    "Sent" record, and returns normally. *)
Theorem send_failure_is_logged h e command w :
  websocket (self w) = Some h ->
  json_dumps_raises P command = None ->
  ws_send P (trace w) h (json_dumps P None command) = Raise e ->
  send_command P command w =
  (Ok tt,
   with_trace w
     (trace w ++
      [IO (Send h (json_dumps P None command) (Raise e));
       Log ERROR [Lit "Failed to send command: "; Exn e]])).
Proof.
  intros Hws Hdumps Hsend.
  rewrite (send_command_connected P command h w Hws Hdumps).
  cbv zeta. now rewrite Hsend.
Qed.

(** X19.  A failure of [json.dumps] is caught as well, and earlier: when
    [json.dumps] raises on the command, [send_command] never calls the
    transport; it logs the cause in one ERROR record and returns
    normally. *)
Theorem dumps_failure_is_logged h e command w :
  websocket (self w) = Some h ->
  json_dumps_raises P command = Some e ->
  send_command P command w =
    (Ok tt,
     with_trace w
       (trace w ++ [Log ERROR [Lit "Failed to send command: "; Exn e]]))
  /\ io_events (trace (snd (send_command P command w))) = io_events (trace w).
Proof.
  intros Hws Hdumps.
  rewrite (send_command_unserialisable P command h e w Hws Hdumps).
  split; [reflexivity |]. simpl. rewrite io_events_app. simpl.
  now rewrite app_nil_r.
Qed.

(** X11.  [connect] makes one transport call, [websockets.connect] on the
    URL fixed at construction, and never raises: it returns [True] exactly
    when the call succeeded.  On success the new handle replaces whatever
    handle the client held, which is not closed; on failure the client
    keeps the handle it had.  Host, port, URL and pending frames are
    untouched. *)
Theorem connect_one_call w :
  let answer := ws_connect P (trace w ++ [connecting w]) (url (self w)) in
  let w' := snd (connect P w) in
  fst (connect P w) = Ok (match answer with Ok _ => true | Raise _ => false end)
  /\ io_events (trace w') = io_events (trace w) ++ [Connect (url (self w)) answer]
  /\ websocket (self w') =
     match answer with Ok h => Some h | Raise _ => websocket (self w) end
  /\ (host (self w'), port (self w'), url (self w')) =
     (host (self w), port (self w), url (self w))
  /\ inbox w' = inbox w.
Proof.
  cbv zeta. rewrite (connect_outcome P w). cbv zeta.
  destruct (ws_connect P (trace w ++ [connecting w]) (url (self w))) as [h | e];
    simpl; rewrite !io_events_app; simpl; rewrite ?app_nil_r; now repeat split.
Qed.

(** X12.  Unlike [connect] and [send_command], [close] catches nothing:
    an exception of [websocket.close] escapes [close], and the
    "Connection closed" record is not written. *)
Theorem close_failure_escapes h e w :
  websocket (self w) = Some h ->
  ws_close P (trace w) h = Raise e ->
  close P w = (Raise e, with_trace w (trace w ++ [IO (Close h (Raise e))])).
Proof.
  intros Hws Hclose. rewrite (close_connected P h w Hws). now rewrite Hclose.
Qed.

(** X13.  Closing does not disconnect the client object: after [close] on
    a client with a handle, whether [close] returned or raised,
    [send_command] on a command [json.dumps] accepts reports no usage
    error and hands its frame to the transport on the same handle. *)
Theorem send_after_close_still_sends h command w :
  websocket (self w) = Some h ->
  json_dumps_raises P command = None ->
  let w1 := snd (close P w) in
  let message := json_dumps P None command in
  io_events (trace (snd (send_command P command w1))) =
  io_events (trace w1) ++ [Send h message (ws_send P (trace w1) h message)].
Proof.
  intros Hws Hdumps w1 message.
  assert (Hws1 : websocket (self w1) = Some h).
  { unfold w1. destruct (close_connected_world P h w Hws) as (records & -> & _).
    exact Hws. }
  rewrite (send_command_connected P command h w1 Hws1 Hdumps). simpl.
  rewrite io_events_app. simpl. fold message.
  now destruct (ws_send P (trace w1) h message).
Qed.

End Contained.

(** ** The demonstration routines *)

Section Routines.

Variable P : Platform.

Lemma close_footprint h w :
  websocket (self w) = Some h ->
  footprint w (snd (close P w)) [Closing h]
  /\ inbox (snd (close P w)) = inbox w
  /\ forall e, fst (close P w) = Raise e -> ws_close P (trace w) h = Raise e.
Proof.
  intro Hws. rewrite (close_connected P h w Hws).
  destruct (ws_close P (trace w) h) as [[] | e] eqn:Hclose; simpl;
    (split; [| split; [reflexivity | intros e' H; now inversion H]]).
  - apply (footprint_add w [IO (Close h (Ok tt)); Log INFO [Lit "Connection closed"]]).
  - apply (footprint_add w [IO (Close h (Raise e))]).
Qed.

Lemma after_connect_handle w h : websocket (self (after_connect w h)) = Some h.
Proof. reflexivity. Qed.

Lemma after_connect_trace w h :
  requests (trace (after_connect w h)) = requests (trace w)
  /\ inbox (after_connect w h) = inbox w.
Proof.
  unfold after_connect. simpl. rewrite requests_app. simpl.
  now rewrite app_nil_r.
Qed.

(** [connect] on the client the routines construct. *)
Lemma connect_first w :
  connect P (with_self w default_client) =
  match first_answer P w with
  | Ok h => (Ok true, after_connect w h)
  | Raise e =>
      (Ok false,
       with_trace (with_self w default_client)
         (trace w ++
          [connecting (with_self w default_client);
           IO (Connect (url default_client) (Raise e));
           Log ERROR [Lit "Failed to connect: "; Exn e]]))
  end.
Proof.
  rewrite (connect_outcome P (with_self w default_client)). cbv zeta.
  unfold first_answer, after_connect.
  change (trace (with_self w default_client)) with (trace w).
  change (url (self (with_self w default_client))) with (url default_client).
  destruct (ws_connect P _ (url default_client)) as [h | e];
    now rewrite <- app_assoc.
Qed.

(** [main] once [connect] has succeeded. *)
Lemma main_connected h w :
  first_answer P w = Ok h ->
  main P w =
  try_finally (try_except (listen P) (fun _ => None)) (close P) (after_connect w h).
Proof.
  intro Hanswer. unfold main, bind at 1 2, new_client.
  rewrite connect_first, Hanswer. reflexivity.
Qed.

(** X14.  When the transport refuses the connection, [main] stops there:
    it returns normally after the three events of the failed [connect],
    without listening and without closing anything. *)
Theorem main_stops_when_connect_fails e w :
  first_answer P w = Raise e ->
  main P w =
  (Ok tt,
   with_trace (with_self w default_client)
     (trace w ++
      [connecting (with_self w default_client);
       IO (Connect (url default_client) (Raise e));
       Log ERROR [Lit "Failed to connect: "; Exn e]])).
Proof.
  intro Hanswer. unfold main, bind at 1 2, new_client.
  rewrite connect_first, Hanswer. reflexivity.
Qed.

(** X15.  When the connection is made, [main] is [listen] followed by
    [close]: it runs [listen] on the new client with the handle [connect]
    returned and then, however the loop ended, runs [close] on the world
    [listen] left, and its outcome is that of this [close].  So
    [websocket.close] is called exactly once, after the loop and on that
    handle, [main] sends nothing, and the only exception it can raise is
    the one [websocket.close] raised. *)
Theorem main_listens_then_closes h w :
  first_answer P w = Ok h ->
  main P w = close P (snd (listen P (after_connect w h)))
  /\ requests (trace (snd (main P w))) = requests (trace w) ++ [Closing h]
  /\ (exists taken, inbox w = taken ++ inbox (snd (main P w)))
  /\ forall e, fst (main P w) = Raise e -> exists t, ws_close P t h = Raise e.
Proof.
  intros Hanswer.
  destruct (after_connect_trace w h) as (Hasked0 & Hinbox0).
  destruct (listen_footprint P (after_connect w h)) as [Hret Hfoot].
  assert (Hrun : main P w = close P (snd (listen P (after_connect w h)))).
  { rewrite (main_connected h w Hanswer). unfold try_finally, try_except.
    destruct (listen P (after_connect w h)) as [r w1]. simpl in Hret. subst r.
    simpl. now destruct (close P w1) as [[[] | e] w2]. }
  rewrite Hrun. split; [reflexivity |].
  set (w1 := snd (listen P (after_connect w h))) in *.
  assert (Hws : websocket (self w1) = Some h).
  { destruct Hfoot as (Hself & _). now rewrite Hself. }
  destruct (close_footprint h w1 Hws) as (Hclose & Hinbox2 & Hraise).
  pose proof (footprint_trans _ _ _ _ _ Hfoot Hclose) as Hall.
  destruct Hall as (_ & _ & (more & Htrace & Hasked) & _).
  destruct Hfoot as (_ & _ & _ & taken & Htaken).
  split; [| split].
  - rewrite Htrace, requests_app, Hasked0, Hasked. reflexivity.
  - exists taken. now rewrite Hinbox2, <- Hinbox0.
  - intros e H. exists (trace w1). now apply Hraise.
Qed.

Lemma taken_only_app h pre post :
  taken_only h (pre ++ post) = taken_only h pre ++ taken_only h post.
Proof. apply map_app. Qed.

Lemma taken_only_quiet h frames : requests (taken_only h frames) = [].
Proof. induction frames as [| frame frames IH]; simpl; [reflexivity | exact IH]. Qed.

Lemma await_ready_drops h pre rest :
  Forall (not_ready P) pre ->
  forall w, inbox w = pre ++ rest ->
    await_ready P h (pre ++ rest) w =
    await_ready P h rest
      (with_inbox (with_trace w (trace w ++ taken_only h pre)) rest).
Proof.
  induction 1 as [| frame pre (fields & Hloads & Hevt) _ IH]; intros w Hinbox.
  - simpl in *. now rewrite app_nil_r, with_trace_same, <- Hinbox, with_inbox_same.
  - change ((frame :: pre) ++ rest) with (frame :: (pre ++ rest)).
    simpl await_ready. unfold bind at 1 2 3, deliver, lift, dict_get. simpl.
    rewrite Hloads. simpl. rewrite Hevt.
    rewrite IH by reflexivity. simpl. now rewrite <- app_assoc.
Qed.

Lemma await_ready_found h frame fields rest w :
  json_loads P frame = Ok (JObject fields) ->
  lookup "evt" fields = Some (JString "READY") ->
  await_ready P h (frame :: rest) w =
  (Ok tt,
   with_inbox
     (with_trace w
        (trace w ++
         [IO (Recv h frame);
          Log INFO [Lit "Received READY, now sending test commands..."]]))
     rest).
Proof.
  intros Hloads Hevt. simpl. unfold bind, deliver, lift, dict_get, get_or_none.
  simpl. rewrite Hloads. simpl. rewrite Hevt. simpl.
  unfold logger_info, emit. simpl. now rewrite <- app_assoc.
Qed.

Lemma await_ready_undecodable h frame e rest w :
  json_loads P frame = Raise e ->
  await_ready P h (frame :: rest) w =
  (Raise e, with_inbox (with_trace w (trace w ++ [IO (Recv h frame)])) rest).
Proof.
  intro Hloads. simpl. unfold bind, deliver, lift. simpl. now rewrite Hloads.
Qed.

(** [test_commands] once [connect] has succeeded. *)
Lemma test_commands_connected steps h w :
  first_answer P w = Ok h ->
  test_commands P steps w =
  try_finally
    (try_except
       ((fun w1 => await_ready P h (inbox w1) w1) ;; send_test_commands P steps)
       (fun e => Some (logger_error [Lit "Error during testing: "; Exn e])))
    (close P) (after_connect w h).
Proof.
  intro Hanswer. unfold test_commands, bind at 1 2, new_client.
  rewrite connect_first, Hanswer. reflexivity.
Qed.

(** X16.  In [test_commands] a frame that cannot be decoded is fatal.
    While it waits for the ready signal, the routine drops the frames
    that are not one, without logging or dispatching them; a frame
    [json.loads] rejects then ends the test: the error is logged, none of
    the three commands is sent, and the routine goes straight to
    [close]. *)
Theorem test_commands_aborts_on_a_bad_frame steps h pre bad e rest w :
  first_answer P w = Ok h ->
  inbox w = pre ++ bad :: rest ->
  Forall (not_ready P) pre ->
  json_loads P bad = Raise e ->
  test_commands P steps w =
  close P
    (with_inbox
       (with_trace (after_connect w h)
          (trace (after_connect w h) ++ taken_only h pre ++
           [IO (Recv h bad);
            Log ERROR [Lit "Error during testing: "; Exn e]]))
       rest).
Proof.
  intros Hanswer Hinbox Hpre Hbad.
  rewrite (test_commands_connected steps h w Hanswer).
  unfold try_finally, try_except, bind at 1.
  change (inbox (after_connect w h)) with (inbox w). rewrite Hinbox.
  rewrite (await_ready_drops h pre (bad :: rest) Hpre (after_connect w h) Hinbox).
  rewrite (await_ready_undecodable h bad e rest _ Hbad).
  unfold logger_error, emit. simpl. rewrite <- !app_assoc. simpl.
  now destruct (close P _) as [[[] | e'] w'].
Qed.

Lemma listen_within_footprint steps w :
  exists in_time w',
    listen_within P steps w = (Ok in_time, w') /\ footprint w w' [].
Proof.
  unfold listen_within, bind at 1. simpl.
  destruct (websocket (self w)) as [h |].
  - unfold try_except.
    pose proof (listen_loop_within_footprint P h steps (inbox w) w eq_refl) as Hloop.
    destruct (listen_loop_within P h steps (inbox w) w) as [[b | e] w'];
      simpl in Hloop.
    + now exists b, w'.
    + destruct e; unfold bind, logger_info, logger_error, emit; simpl;
        eexists true, _; (split; [reflexivity |]);
        apply (footprint_then w w'); try exact Hloop;
        now apply footprint_logs.
  - unfold bind, logger_error, emit. simpl.
    eexists true, _. split; [reflexivity |]. now apply footprint_logs.
Qed.

Lemma send_command_step command h w :
  websocket (self w) = Some h ->
  json_dumps_raises P command = None ->
  exists w',
    send_command P command w = (Ok tt, w')
    /\ websocket (self w') = Some h
    /\ footprint w w' [Sending h (json_dumps P None command)].
Proof.
  intros Hws Hdumps.
  destruct (send_command_footprint P command w) as (Hret & _ & Hfoot).
  rewrite Hws, Hdumps in Hfoot.
  destruct (send_command P command w) as [r w']. simpl in *. subst r.
  exists w'. split; [reflexivity |]. split; [| exact Hfoot].
  destruct Hfoot as (Hself & _). now rewrite Hself.
Qed.

(** The three commands go out in order, whatever the transport answers
    and however long [listen] is given. *)
Lemma send_test_commands_footprint steps h w :
  websocket (self w) = Some h ->
  Forall (fun command => json_dumps_raises P command = None)
         [get_guilds; get_channels; set_activity test_activity] ->
  exists w',
    send_test_commands P steps w = (Ok tt, w')
    /\ websocket (self w') = Some h
    /\ footprint w w' (test_requests P h).
Proof.
  intros Hws Hdumps.
  inversion Hdumps as [| ? ? Hd1 Hdumps1]; subst.
  inversion Hdumps1 as [| ? ? Hd2 Hdumps2]; subst.
  inversion Hdumps2 as [| ? ? Hd3 _]; subst.
  unfold send_test_commands, send_activity_update, asyncio_sleep.
  fold (set_activity test_activity).
  destruct (send_command_step get_guilds h w Hws Hd1) as (w1 & H1 & Hws1 & Hf1).
  destruct (send_command_step get_channels h w1 Hws1 Hd2) as (w2 & H2 & Hws2 & Hf2).
  destruct (send_command_step (set_activity test_activity) h w2 Hws2 Hd3)
    as (w3 & H3 & Hws3 & Hf3).
  destruct (listen_within_footprint steps w3) as (in_time & w4 & H4 & Hf4).
  pose proof (footprint_trans _ _ _ _ _ Hf1 Hf2) as Hf12.
  pose proof (footprint_trans _ _ _ _ _ Hf12 Hf3) as Hf123.
  pose proof (footprint_then _ _ _ _ Hf123 Hf4) as Hf.
  simpl in Hf.
  assert (Hws4 : websocket (self w4) = Some h).
  { destruct Hf4 as (Hself & _). now rewrite Hself. }
  unfold bind. rewrite H1. simpl. rewrite H2. simpl. rewrite H3, H4.
  destruct in_time.
  - now exists w4.
  - unfold logger_info, emit. eexists. split; [reflexivity |].
    split; [exact Hws4 |].
    apply (footprint_then w w4); [exact Hf | now apply footprint_logs].
Qed.

(** [test_commands] from the moment its first loop has returned. *)
Lemma test_commands_after_the_wait steps h w w2 :
  first_answer P w = Ok h ->
  Forall (fun command => json_dumps_raises P command = None)
         [get_guilds; get_channels; set_activity test_activity] ->
  await_ready P h (inbox w) (after_connect w h) = (Ok tt, w2) ->
  footprint (after_connect w h) w2 [] ->
  requests (trace (snd (test_commands P steps w))) =
  requests (trace w) ++ test_requests P h ++ [Closing h].
Proof.
  intros Hanswer Hdumps Hwait Hf2.
  assert (Hws2 : websocket (self w2) = Some h).
  { destruct Hf2 as (Hself & _). now rewrite Hself. }
  destruct (send_test_commands_footprint steps h w2 Hws2 Hdumps)
    as (w3 & Hsend & Hws3 & Hf3).
  assert (Hrun : test_commands P steps w =
                 (fst (close P w3), snd (close P w3))).
  { rewrite (test_commands_connected steps h w Hanswer).
    unfold try_finally, try_except, bind at 1.
    change (inbox (after_connect w h)) with (inbox w).
    rewrite Hwait, Hsend. now destruct (close P w3) as [[[] | e] w4]. }
  rewrite Hrun. simpl.
  destruct (close_footprint h w3 Hws3) as (Hf4 & _).
  pose proof (footprint_trans _ _ _ _ _ Hf2 Hf3) as Hf23.
  pose proof (footprint_trans _ _ _ _ _ Hf23 Hf4) as Hf.
  destruct Hf as (_ & _ & (more & -> & Hasked) & _).
  destruct (after_connect_trace w h) as (Hasked0 & _).
  now rewrite requests_app, Hasked0, Hasked.
Qed.

(** X17.  Once a frame with [evt] equal to ["READY"] has arrived,
    [test_commands] asks four things of the transport, in this order: to
    send [GET_GUILDS], to send [GET_CHANNELS], to send [SET_ACTIVITY], each
    once and also when a send fails, and then, at the end, to close the
    handle; this holds however many frames the final [listen] is given
    time for.  ([json.dumps] accepts the three commands, which are
    literals of the routine.) *)
Theorem test_commands_sends_after_ready steps h pre ready fields rest w :
  first_answer P w = Ok h ->
  Forall (fun command => json_dumps_raises P command = None)
         [get_guilds; get_channels; set_activity test_activity] ->
  inbox w = pre ++ ready :: rest ->
  Forall (not_ready P) pre ->
  json_loads P ready = Ok (JObject fields) ->
  lookup "evt" fields = Some (JString "READY") ->
  requests (trace (snd (test_commands P steps w))) =
  requests (trace w) ++
  [Sending h (json_dumps P None get_guilds);
   Sending h (json_dumps P None get_channels);
   Sending h (json_dumps P None (set_activity test_activity));
   Closing h].
Proof.
  intros Hanswer Hdumps Hinbox Hpre Hloads Hevt.
  apply (test_commands_after_the_wait steps h w
           (with_inbox
              (with_trace (after_connect w h)
                 (trace (after_connect w h) ++ taken_only h pre ++
                  [IO (Recv h ready);
                   Log INFO [Lit "Received READY, now sending test commands..."]]))
              rest) Hanswer Hdumps).
  - rewrite Hinbox.
    rewrite (await_ready_drops h pre (ready :: rest) Hpre (after_connect w h) Hinbox).
    rewrite (await_ready_found h ready fields rest _ Hloads Hevt).
    simpl. rewrite <- ?app_assoc. reflexivity.
  - unfold footprint. simpl. repeat split.
    + eexists. split; [reflexivity |].
      rewrite requests_app, taken_only_quiet. reflexivity.
    + exists (pre ++ [ready]). now rewrite Hinbox, <- app_assoc.
Qed.

(** X18.  The ready signal is not required.  If the server ends the
    stream normally before any ready frame, the first loop of
    [test_commands] just finishes, and the routine asks the same four
    things of the transport, in the same order: the three commands, and
    then the closing of the handle. *)
Theorem test_commands_sends_without_ready steps h w :
  first_answer P w = Ok h ->
  Forall (fun command => json_dumps_raises P command = None)
         [get_guilds; get_channels; set_activity test_activity] ->
  Forall (not_ready P) (inbox w) ->
  inbox_end w = None ->
  requests (trace (snd (test_commands P steps w))) =
  requests (trace w) ++
  [Sending h (json_dumps P None get_guilds);
   Sending h (json_dumps P None get_channels);
   Sending h (json_dumps P None (set_activity test_activity));
   Closing h].
Proof.
  intros Hanswer Hdumps Hpre Hend.
  assert (Hinbox : inbox (after_connect w h) = inbox w ++ []) by now rewrite app_nil_r.
  apply (test_commands_after_the_wait steps h w
           (with_inbox
              (with_trace (after_connect w h)
                 (trace (after_connect w h) ++ taken_only h (inbox w) ++
                  [IO (RecvEnd h None)]))
              []) Hanswer Hdumps).
  - rewrite <- (app_nil_r (inbox w)) at 1.
    rewrite (await_ready_drops h (inbox w) [] Hpre (after_connect w h) Hinbox).
    simpl. unfold end_of_frames. simpl. rewrite Hend.
    rewrite <- ?app_assoc. reflexivity.
  - unfold footprint. simpl. repeat split.
    + eexists. split; [reflexivity |].
      rewrite requests_app, taken_only_quiet. reflexivity.
    + exists (inbox w). now rewrite app_nil_r.
Qed.

End Routines.

(** ** The receive loop, frame by frame *)

Section Frames_in_turn.

Variable P : Platform.


(** Frames that decode and dispatch without raising are as many turns. *)
Lemma listen_serves h fds rest w :
  Forall (dispatchable P) fds ->
  websocket (self w) = Some h ->
  inbox w = map fst fds ++ rest ->
  listen P w =
  listen P (with_inbox (with_trace w (trace w ++ flat_map (served P h) fds)) rest).
Proof.
  intros Hfds Hws Hinbox.
  apply (listen_connected P h); [exact Hws | exact Hws |].
  simpl inbox. rewrite Hinbox. clear Hws.
  revert w Hinbox. induction Hfds as [| [frame data] fds [Hloads Hret] _ IH];
    intros w Hinbox.
  - simpl in *. rewrite app_nil_r, with_trace_same.
    now rewrite <- Hinbox, with_inbox_same.
  - simpl in Hloads, Hret.
    change (map fst ((frame, data) :: fds) ++ rest)
      with (frame :: (map fst fds ++ rest)).
    rewrite (listen_loop_turn P h frame (map fst fds ++ rest) w
               (emitted (handle_message P data)))
      by (intro w'; now apply process_dispatched).
    rewrite IH by reflexivity.
    unfold received, served. simpl. now rewrite <- !app_assoc.
Qed.


(** C8, as the code has it.  As long as every dispatch returns, frames are
    dispatched in the order the transport delivers them, each dispatch
    complete before the next frame is awaited: [listen] returns normally
    and its trace goes on with the events of the first frame (taken,
    logged, dispatched), then those of the second, and so on, and only then
    with the next step of the frame iterator.  The first dispatch that
    raises ends the loop: its exception is logged, and the frames after it
    are neither taken nor dispatched. *)
Theorem frames_are_dispatched_in_order h fds rest w :
  Forall (dispatchable P) fds ->
  websocket (self w) = Some h ->
  inbox w = map fst fds ++ rest ->
  fst (listen P w) = Ok tt
  /\ (exists more,
        trace (snd (listen P w)) =
        trace w ++ flat_map (served P h) fds
          ++ next_step h rest (inbox_end w) :: more)
  /\ forall bad data e rest',
       rest = bad :: rest' ->
       json_loads P bad = Ok data ->
       returned (handle_message P data) = Raise e ->
       listen P w =
       (Ok tt,
        with_inbox
          (with_trace w
             (trace w ++ flat_map (served P h) fds ++ received h bad
                ++ emitted (handle_message P data) ++ [listen_error e]))
          rest').
Proof.
  intros Hfds Hws Hinbox.
  split; [apply listen_never_raises |].
  pose proof (listen_serves h fds rest w Hfds Hws Hinbox) as Hserve.
  set (w1 := with_inbox (with_trace w (trace w ++ flat_map (served P h) fds)) rest)
    in *.
  split.
  - rewrite Hserve. destruct (listen_head P h w1 Hws) as (more & Hhead).
    exists more. rewrite Hhead. unfold w1. simpl. now rewrite <- !app_assoc.
  - intros bad data e rest' -> Hloads Hret. rewrite Hserve.
    rewrite (listen_stops_on P bad rest' h e (emitted (handle_message P data)) w1
               Hws eq_refl)
      by (intro w'; now apply process_raises).
    pose proof (handle_message_raises P data e Hret) as Hkind.
    unfold w1. simpl. rewrite <- !app_assoc.
    destruct e; try discriminate Hkind; reflexivity.
Qed.

Lemma payload_error_raised fields e :
  payload_error fields e ->
  returned (handle_message P (JObject fields)) = Raise e.
Proof.
  unfold returned.
  intros [Hevt Hdata | v Hevt Hdata Hv | d Hevt Hdata Huser
          | d v Hevt Hdata Huser Hv | d u Hevt Hdata Huser Hname
          | d u name Hevt Hdata Huser Hname Hconfig | Hevt Hcmd Hdata];
    try rewrite (handle_message_ready P fields blank Hevt);
    unfold bind, getitem; simpl.
  - now rewrite Hdata.
  - rewrite Hdata. destruct v; simpl; try reflexivity. now elim Hv.
  - rewrite Hdata. simpl. now rewrite Huser.
  - rewrite Hdata. simpl. rewrite Huser.
    destruct v; simpl; try reflexivity. now elim Hv.
  - rewrite Hdata. simpl. rewrite Huser. simpl. now rewrite Hname.
  - rewrite Hdata. simpl. rewrite Huser. simpl. rewrite Hname. simpl.
    now rewrite Hconfig.
  - unfold handle_message, dict_get, bind, getitem. simpl.
    rewrite Hevt. unfold get_or_none. rewrite Hcmd. simpl. now rewrite Hdata.
Qed.

(** C10, as the code has it.  A frame that decodes to a ready Envelope
    without the [data], [user], [username] or [config] the ready branch
    reads, or to a generic dispatch without [data], makes [handle_message]
    raise: a [KeyError] when a dict on the way lacks the key, a
    [TypeError] when [data] or [user] is there but is not a dict.  The
    exception passes the inner [except]; [listen] logs it as an error
    while listening and returns, and the frames after it stay with the
    transport. *)
Theorem missing_payload_ends_the_loop h frame fields e rest w :
  json_loads P frame = Ok (JObject fields) ->
  payload_error fields e ->
  websocket (self w) = Some h ->
  inbox w = frame :: rest ->
  returned (handle_message P (JObject fields)) = Raise e
  /\ ((exists key, e = KeyError key) \/ (exists of_type, e = TypeError of_type))
  /\ listen P w =
     (Ok tt,
      with_inbox
        (with_trace w
           (trace w ++ received h frame
              ++ emitted (handle_message P (JObject fields))
              ++ [listen_error e]))
        rest).
Proof.
  intros Hloads Hlacks Hws Hinbox.
  pose proof (payload_error_raised fields e Hlacks) as Hret.
  assert (Hkind : (exists key, e = KeyError key)
                  \/ (exists of_type, e = TypeError of_type)).
  { destruct Hlacks; eauto. }
  assert (Hlisten :
    listen P w =
    (Ok tt,
     with_inbox
       (with_trace w
          (trace w ++ received h frame
             ++ emitted (handle_message P (JObject fields))
             ++ [listen_error e]))
       rest)).
  { rewrite (listen_stops_on P frame rest h e
               (emitted (handle_message P (JObject fields))) w Hws Hinbox)
      by (intro w'; now apply process_raises).
    destruct Hkind as [[key ->] | [of_type ->]]; reflexivity. }
  split; [exact Hret |]. split; [exact Hkind | exact Hlisten].
Qed.

End Frames_in_turn.

(** ** The receive loop at concrete inputs *)



(** Three frames, F1, F2, F3, whose dispatch returns. *)
Lemma frames_are_dispatched_in_order_witness :
  Forall (dispatchable Sample.calm) Sample.three_frames
  /\ fst (listen Sample.calm (Sample.connected (map fst Sample.three_frames))) = Ok tt
  /\ exists more,
       trace (snd (listen Sample.calm
                     (Sample.connected (map fst Sample.three_frames)))) =
       flat_map (served Sample.calm 1) Sample.three_frames
         ++ IO (RecvEnd 1 None) :: more.
Proof.
  assert (H : Forall (dispatchable Sample.calm) Sample.three_frames)
    by (repeat constructor).
  split; [exact H |].
  destruct (frames_are_dispatched_in_order Sample.calm 1 Sample.three_frames []
              (Sample.connected (map fst Sample.three_frames)) H eq_refl eq_refl)
    as (Hret & Htrace & _).
  split; [exact Hret | exact Htrace].
Defined.

(** C8 as the specification states it fails when a dispatch raises.  The
    transport holds three valid Envelopes; the dispatch of the first, a
    ready signal without [data], raises, and [handle_message] is never
    called on the second and the third, which are not even taken. *)
Lemma later_frames_are_not_dispatched_counterexample :
  map (json_loads Sample.calm)
      [Sample.frame_ready_bare; Sample.frame_dispatch_x; Sample.frame_only_nonce]
    = [Ok Sample.ready_bare; Ok Sample.dispatch_x; Ok Sample.only_nonce]
  /\ listen Sample.calm
       (Sample.connected
          [Sample.frame_ready_bare; Sample.frame_dispatch_x; Sample.frame_only_nonce]) =
     (Ok tt,
      with_trace
        (Sample.connected [Sample.frame_dispatch_x; Sample.frame_only_nonce])
        [IO (Recv 1 Sample.frame_ready_bare);
         Log INFO [Lit "Received: "; Val (JString Sample.frame_ready_bare)];
         Log INFO [Lit "Discord RPC is ready!"];
         Log ERROR [Lit "Error while listening: "; Exn (KeyError "data")]]).
Proof. split; reflexivity. Qed.

(** A ready Envelope without [data], a valid frame after it. *)
Lemma missing_payload_ends_the_loop_witness :
  json_loads Sample.calm Sample.frame_ready_bare = Ok Sample.ready_bare
  /\ payload_error [("cmd", JString "DISPATCH"); ("evt", JString "READY")]
       (KeyError "data")
  /\ listen Sample.calm
       (Sample.connected [Sample.frame_ready_bare; Sample.frame_dispatch_x]) =
     (Ok tt,
      with_inbox
        (with_trace
           (Sample.connected [Sample.frame_ready_bare; Sample.frame_dispatch_x])
           (received 1 Sample.frame_ready_bare
              ++ emitted (handle_message Sample.calm Sample.ready_bare)
              ++ [listen_error (KeyError "data")]))
        [Sample.frame_dispatch_x]).
Proof.
  assert (H : payload_error [("cmd", JString "DISPATCH"); ("evt", JString "READY")]
                (KeyError "data"))
    by (apply ready_without_data; reflexivity).
  split; [reflexivity |]. split; [exact H |].
  destruct (missing_payload_ends_the_loop Sample.calm 1 Sample.frame_ready_bare
              [("cmd", JString "DISPATCH"); ("evt", JString "READY")]
              (KeyError "data") [Sample.frame_dispatch_x]
              (Sample.connected [Sample.frame_ready_bare; Sample.frame_dispatch_x])
              eq_refl H eq_refl eq_refl) as (_ & _ & Hlisten).
  exact Hlisten.
Defined.

(** C10 as the specification states it fails on the kind of exception.  A
    ready Envelope whose [data] is [null] lacks the nested fields, and the
    subscript raises [TypeError], which is no lookup error; so does one
    whose [user] is a string. *)
Lemma payload_type_error_counterexample :
  handle_message Sample.calm
    (JObject [("evt", JString "READY"); ("data", JNull)]) (Sample.fresh []) =
    (Raise (TypeError "NoneType"),
     with_trace (Sample.fresh []) [Log INFO [Lit "Discord RPC is ready!"]])
  /\ is_LookupError (TypeError "NoneType") = false
  /\ handle_message Sample.calm
       (JObject [("evt", JString "READY");
                 ("data", JObject [("user", JString "bob"); ("config", JObject [])])])
       (Sample.fresh []) =
     (Raise (TypeError "str"),
      with_trace (Sample.fresh []) [Log INFO [Lit "Discord RPC is ready!"]])
  /\ is_LookupError (TypeError "str") = false.
Proof. repeat split. Qed.

(** ** The theorems beyond the claims at concrete inputs *)

Lemma dispatch_is_logged_witness :
  lookup "cmd" [("cmd", JString "DISPATCH"); ("evt", JString "X");
                ("data", JObject [])] = Some (JString "DISPATCH")
  /\ handle_message Sample.calm Sample.dispatch_x (Sample.fresh []) =
     (Ok tt,
      with_trace (Sample.fresh [])
        [Log INFO [Lit "Dispatch event: "; Val (JString "X")];
         Log INFO [Lit "Data: "; Val (JString "<dict>")]]).
Proof.
  split; [reflexivity |].
  apply (dispatch_is_logged Sample.calm
           [("cmd", JString "DISPATCH"); ("evt", JString "X"); ("data", JObject [])]
           (JObject []) (Sample.fresh [])); reflexivity.
Defined.

Lemma ready_is_logged_witness :
  handle_message Sample.calm Sample.ready_alice (Sample.fresh []) =
  (Ok tt,
   with_trace (Sample.fresh [])
     [Log INFO [Lit "Discord RPC is ready!"];
      Log INFO [Lit "User: "; Val (JString "alice")];
      Log INFO [Lit "Config: "; Val (JObject [])]]).
Proof.
  apply (ready_is_logged Sample.calm
           [("evt", JString "READY");
            ("data", JObject [("user", JObject [("username", JString "alice")]);
                              ("config", JObject [])])]
           [("user", JObject [("username", JString "alice")]); ("config", JObject [])]
           [("username", JString "alice")] (JString "alice") (JObject [])
           (Sample.fresh [])); reflexivity.
Defined.

Lemma dispatch_exception_ends_the_loop_witness :
  returned (handle_message Sample.calm JNull) = Raise (AttributeError "NoneType" "get")
  /\ listen Sample.calm (Sample.connected ["null"; "{}"]) =
     (Ok tt,
      with_inbox
        (with_trace (Sample.connected ["null"; "{}"])
           (received 1 "null"
              ++ emitted (handle_message Sample.calm JNull)
              ++ [listen_error (AttributeError "NoneType" "get")]))
        ["{}"]).
Proof.
  split; [reflexivity |].
  apply (dispatch_exception_ends_the_loop Sample.calm 1 "null" JNull
           (AttributeError "NoneType" "get") ["{}"]
           (Sample.connected ["null"; "{}"])); reflexivity.
Defined.

Lemma non_object_frame_ends_the_loop_witness :
  json_loads Sample.calm "[]" = Ok (JArray [])
  /\ listen Sample.calm (Sample.connected ["[]"; "{}"]) =
     (Ok tt,
      with_inbox
        (with_trace (Sample.connected ["[]"; "{}"])
           (received 1 "[]" ++ [listen_error (AttributeError "list" "get")]))
        ["{}"]).
Proof.
  split; [reflexivity |].
  apply (non_object_frame_ends_the_loop Sample.calm 1 "[]" (JArray []) ["{}"]
           (Sample.connected ["[]"; "{}"]));
    [reflexivity | discriminate | reflexivity | reflexivity].
Defined.

Lemma other_decoder_exception_ends_the_loop_witness :
  json_loads Trial.no_loads "[[[[" = Raise Trial.too_deep
  /\ listen Trial.no_loads (Sample.connected ["[[[["; "{}"]) =
     (Ok tt,
      with_inbox
        (with_trace (Sample.connected ["[[[["; "{}"])
           (received 1 "[[[[" ++ [listen_error Trial.too_deep]))
        ["{}"]).
Proof.
  split; [reflexivity |].
  apply (other_decoder_exception_ends_the_loop Trial.no_loads 1 "[[[["
           Trial.too_deep ["{}"] (Sample.connected ["[[[["; "{}"]));
    [reflexivity | discriminate | reflexivity | reflexivity].
Defined.

Lemma listen_end_of_stream_witness :
  listen Sample.calm (Trial.ending Trial.dropped) =
  (Ok tt,
   with_trace (Trial.ending Trial.dropped)
     [IO (RecvEnd 1 (Some Trial.dropped));
      Log INFO [Lit "Connection closed by server"]]).
Proof.
  apply (listen_end_of_stream Sample.calm 1 (Trial.ending Trial.dropped));
    reflexivity.
Defined.

Lemma close_failure_escapes_witness :
  close Trial.no_close (Sample.connected []) =
  (Raise Trial.broken_pipe,
   with_trace (Sample.connected []) [IO (Close 1 (Raise Trial.broken_pipe))]).
Proof.
  apply (close_failure_escapes Trial.no_close 1 Trial.broken_pipe
           (Sample.connected [])); reflexivity.
Defined.

Lemma main_stops_when_connect_fails_witness :
  main (Sample.failing Sample.refused) (Sample.fresh ["{}"]) =
  (Ok tt,
   with_trace (Sample.fresh ["{}"])
     [Log INFO [Lit "Connecting to "; Val (JString "ws://localhost:6463")];
      IO (Connect "ws://localhost:6463" (Raise Sample.refused));
      Log ERROR [Lit "Failed to connect: "; Exn Sample.refused]]).
Proof.
  apply (main_stops_when_connect_fails (Sample.failing Sample.refused)
           Sample.refused (Sample.fresh ["{}"])).
  reflexivity.
Defined.

Lemma send_failure_is_logged_witness :
  json_dumps_raises Trial.no_send get_guilds = None
  /\ send_command Trial.no_send get_guilds (Sample.connected []) =
     (Ok tt,
      with_trace (Sample.connected [])
        [IO (Send 1 "<dict>" (Raise Trial.dropped));
         Log ERROR [Lit "Failed to send command: "; Exn Trial.dropped]]).
Proof.
  split; [reflexivity |].
  apply (send_failure_is_logged Trial.no_send 1 Trial.dropped get_guilds
           (Sample.connected [])); reflexivity.
Defined.

(** [send_command({"cmd": 2**16610})]: nothing reaches the transport. *)
Lemma dumps_failure_is_logged_witness :
  json_dumps_raises Trial.limited Trial.long_command = Some Trial.digit_limit
  /\ send_command Trial.limited Trial.long_command (Sample.connected []) =
     (Ok tt,
      with_trace (Sample.connected [])
        [Log ERROR [Lit "Failed to send command: "; Exn Trial.digit_limit]])
  /\ io_events
       (trace (snd (send_command Trial.limited Trial.long_command
                      (Sample.connected [])))) = [].
Proof.
  assert (H : json_dumps_raises Trial.limited Trial.long_command
              = Some Trial.digit_limit) by (vm_compute; reflexivity).
  split; [exact H |].
  apply (dumps_failure_is_logged Trial.limited 1 Trial.digit_limit
           Trial.long_command (Sample.connected []) eq_refl H).
Defined.

Lemma send_after_close_still_sends_witness :
  websocket (self (Sample.connected [])) = Some 1
  /\ json_dumps_raises Trial.limited get_guilds = None
  /\ io_events
       (trace (snd (send_command Trial.limited get_guilds
                      (snd (close Trial.limited (Sample.connected []))))))
     = [Close 1 (Ok tt);
        Send 1 (json_dumps Trial.limited None get_guilds) (Ok tt)].
Proof.
  split; [reflexivity |]. split; [reflexivity |].
  apply (send_after_close_still_sends Trial.limited 1 get_guilds
           (Sample.connected [])); reflexivity.
Defined.

Lemma main_listens_then_closes_witness :
  first_answer Sample.calm (Sample.fresh ["not json"; Sample.frame_ready_bare; "{}"])
    = Ok 1
  /\ main Sample.calm (Sample.fresh ["not json"; Sample.frame_ready_bare; "{}"]) =
     close Sample.calm
       (snd (listen Sample.calm
               (after_connect
                  (Sample.fresh ["not json"; Sample.frame_ready_bare; "{}"]) 1)))
  /\ requests
       (trace (snd (main Sample.calm
                      (Sample.fresh ["not json"; Sample.frame_ready_bare; "{}"]))))
     = [Closing 1].
Proof.
  split; [reflexivity |].
  destruct (main_listens_then_closes Sample.calm 1
              (Sample.fresh ["not json"; Sample.frame_ready_bare; "{}"]) eq_refl)
    as (Hrun & Hasked & _).
  split; [exact Hrun | exact Hasked].
Defined.

Lemma test_commands_aborts_on_a_bad_frame_witness :
  Forall (not_ready Sample.calm) ["{}"]
  /\ test_commands Sample.calm 5
       (Sample.fresh ["{}"; "not json"; Sample.frame_ready_alice]) =
     close Sample.calm
       (with_inbox
          (with_trace
             (after_connect (Sample.fresh ["{}"; "not json"; Sample.frame_ready_alice]) 1)
             (trace (after_connect
                       (Sample.fresh ["{}"; "not json"; Sample.frame_ready_alice]) 1)
                ++ taken_only 1 ["{}"] ++
                [IO (Recv 1 "not json");
                 Log ERROR
                   [Lit "Error during testing: ";
                    Exn (JSONDecodeError "Expecting value: line 1 column 1 (char 0)")]]))
          [Sample.frame_ready_alice]).
Proof.
  assert (H : Forall (not_ready Sample.calm) ["{}"]).
  { constructor; [| constructor]. exists []. split; reflexivity. }
  split; [exact H |].
  apply (test_commands_aborts_on_a_bad_frame Sample.calm 5 1 ["{}"] "not json"
           (JSONDecodeError "Expecting value: line 1 column 1 (char 0)")
           [Sample.frame_ready_alice]
           (Sample.fresh ["{}"; "not json"; Sample.frame_ready_alice])
           eq_refl eq_refl H eq_refl).
Defined.

(** The three frames of [test_commands] as [json.dumps] prints them. *)
Example test_frames_text :
  frames_of (test_requests Trial.limited 1) =
  [Trial.dumps_text get_guilds;
   Trial.dumps_text get_channels;
   Trial.dumps_text (set_activity test_activity)]
  /\ Trial.dumps_text get_channels =
     ("{" ++ Sample.quoted "cmd" ++ ": " ++ Sample.quoted "GET_CHANNELS" ++ ", "
          ++ Sample.quoted "args" ++ ": {" ++ Sample.quoted "guild_id"
          ++ ": null}}")%string.
Proof. split; reflexivity. Qed.

Lemma test_commands_sends_after_ready_witness :
  Forall (not_ready Trial.limited_no_send) ["{}"]
  /\ requests
       (trace (snd (test_commands Trial.limited_no_send 0
                      (Sample.fresh ["{}"; Sample.frame_ready_alice; "{}"]))))
     = [Sending 1 (Trial.dumps_text get_guilds);
        Sending 1 (Trial.dumps_text get_channels);
        Sending 1 (Trial.dumps_text (set_activity test_activity));
        Closing 1].
Proof.
  assert (H : Forall (not_ready Trial.limited_no_send) ["{}"]).
  { constructor; [| constructor]. exists []. split; reflexivity. }
  split; [exact H |].
  apply (test_commands_sends_after_ready Trial.limited_no_send 0 1 ["{}"]
           Sample.frame_ready_alice
           [("evt", JString "READY");
            ("data", JObject [("user", JObject [("username", JString "alice")]);
                              ("config", JObject [])])]
           ["{}"]
           (Sample.fresh ["{}"; Sample.frame_ready_alice; "{}"])
           eq_refl);
    [repeat constructor | reflexivity | exact H | reflexivity | reflexivity].
Defined.

Lemma test_commands_sends_without_ready_witness :
  Forall (not_ready Trial.limited) ["{}"; Sample.frame_dispatch_x]
  /\ requests
       (trace (snd (test_commands Trial.limited 3
                      (Sample.fresh ["{}"; Sample.frame_dispatch_x]))))
     = [Sending 1 (Trial.dumps_text get_guilds);
        Sending 1 (Trial.dumps_text get_channels);
        Sending 1 (Trial.dumps_text (set_activity test_activity));
        Closing 1].
Proof.
  assert (H : Forall (not_ready Trial.limited) ["{}"; Sample.frame_dispatch_x]).
  { constructor; [| constructor; [| constructor]].
    - exists []. split; reflexivity.
    - exists [("cmd", JString "DISPATCH"); ("evt", JString "X"); ("data", JObject [])].
      split; reflexivity. }
  split; [exact H |].
  apply (test_commands_sends_without_ready Trial.limited 3 1
           (Sample.fresh ["{}"; Sample.frame_dispatch_x]) eq_refl);
    [repeat constructor | exact H | reflexivity].
Defined.

(** A whole run of [test_commands]: the ready signal arrives, the three
    commands go out, and the deadline falls after one more frame. *)
Example test_commands_run :
  test_commands Sample.calm 1
    (Sample.fresh [Sample.frame_ready_alice; Sample.frame_dispatch_x; "{}"]) =
  (Ok tt,
   with_trace (Sample.connected ["{}"])
     [Log INFO [Lit "Connecting to "; Val (JString "ws://localhost:6463")];
      IO (Connect "ws://localhost:6463" (Ok 1));
      Log INFO [Lit "Connected successfully!"];
      IO (Recv 1 Sample.frame_ready_alice);
      Log INFO [Lit "Received READY, now sending test commands..."];
      IO (Send 1 "<dict>" (Ok tt));
      Log INFO [Lit "Sent: "; Val (JString "<dict>")];
      IO (Send 1 "<dict>" (Ok tt));
      Log INFO [Lit "Sent: "; Val (JString "<dict>")];
      IO (Send 1 "<dict>" (Ok tt));
      Log INFO [Lit "Sent: "; Val (JString "<dict>")];
      IO (Recv 1 Sample.frame_dispatch_x);
      Log INFO [Lit "Received: "; Val (JString Sample.frame_dispatch_x)];
      Log INFO [Lit "Dispatch event: "; Val (JString "X")];
      Log INFO [Lit "Data: "; Val (JString "<dict>")];
      Log INFO [Lit "Finished listening after "; Val (JInt 10); Lit " seconds"];
      IO (Close 1 (Ok tt));
      Log INFO [Lit "Connection closed"]]).
Proof. reflexivity. Qed.
